(** * Loop unrolling pass (src/pass/unroll_loop.cc)

    A shallow embedding of [LoopUnroller] and of the entry point
    [UnrollLoop], with the properties of the pass stated over it.

    The mutator class keeps three [int] fields that it mutates during the
    descent; here they are an explicit [State] threaded through the
    traversal.  [CHECK_GE] aborts the pass: the traversal returns in a
    small error monad.  Handle identity ([same_as]) is carried as a flag
    next to every rewritten statement. *)

From Stdlib Require Import ZArith List Bool Lia String.
Import ListNotations.
Open Scope Z_scope.

(** ** Machine integers *)

Module Int.

Definition min_int : Z := - 2 ^ 31.
Definition max_int : Z := 2 ^ 31 - 1.

(** The value of a C++ [int] that holds [z] modulo [2^32]: what
    [static_cast<int>] yields and what the arithmetic of the usual
    two's-complement targets leaves behind. *)
Definition to_int (z : Z) : Z := (z + 2 ^ 31) mod 2 ^ 32 - 2 ^ 31.

Definition in_range (z : Z) : Prop := min_int <= z <= max_int.

Definition add (a b : Z) : Z := to_int (a + b).
Definition mul (a b : Z) : Z := to_int (a * b).

End Int.

(** ** The IR consumed by the pass *)

(** Scalar types of loop variables and of integer literals. *)
Inductive DType : Type :=
| TInt (bits : N)
| TUInt (bits : N).

Record VarT : Type := mkVar { name_hint : string; var_type : DType }.

Inductive Expr : Type :=
| IntImm (t : DType) (value : Z)
| UIntImm (t : DType) (value : Z)
| EVar (v : VarT)
| Add (a b : Expr)
| Load (buffer : string) (index : Expr)
| Call (callee : string) (arg : Expr).

Inductive ForType : Type := Serial | Parallel | Vectorized | Unrolled.

(** Statements.  [For], [Store], [Evaluate] and [Block] are the node kinds
    the unroller overrides; [IfThenElse], [AttrStmt] and [Provide] stand for
    the kinds it leaves to the default tree walk (two statement children,
    one statement child, none). *)
Inductive Stmt : Type :=
| For (loop_var : VarT) (min extent : Expr) (for_type : ForType)
      (device_api : Z) (body : Stmt)
| Store (buffer : string) (value index : Expr)
| Evaluate (value : Expr)
| Block (first rest : Stmt)
| IfThenElse (condition : Expr) (then_case else_case : Stmt)
| AttrStmt (attr_key : string) (value : Expr) (body : Stmt)
| Provide (func : string) (value : Expr).

Definition ForType_eqb (a b : ForType) : bool :=
  match a, b with
  | Serial, Serial | Parallel, Parallel
  | Vectorized, Vectorized | Unrolled, Unrolled => true
  | _, _ => false
  end.

(** Modelled from the spec: [Block::make] (tvm/ir.h) is not part of the
    sources at hand.  It composes two statements to run in order and keeps
    the canonical nesting of the end-to-end example, a sequence of more than
    two statements being nested to the right: when the first statement is
    itself a block, its rest is composed with the second one. *)
Fixpoint Block_make (first rest : Stmt) : Stmt :=
  match first with
  | Block b_first b_rest => Block b_first (Block_make b_rest rest)
  | _ => Block first rest
  end.

(** [make_const(t, i)]: the literal [i] at type [t]. *)
Definition make_const (t : DType) (i : Z) : Expr :=
  match t with
  | TInt _ => IntImm t i
  | TUInt _ => UIntImm t i
  end.

(** The integer an expression denotes when it is a signed or unsigned
    literal. *)
Definition literal_value (e : Expr) : option Z :=
  match e with
  | IntImm _ v | UIntImm _ v => Some v
  | _ => None
  end.

(** ** Collaborators of the pass *)

(** The simplifier, the substitution engine, the constant-folding addition
    of arithmetic/compute_expr.h and the single-assignment renamer live
    outside this file; the pass is parametric in them. *)
Record Externals : Type := mkExternals {
  Simplify : Expr -> Expr;
  Substitute : Stmt -> VarT * Expr -> Stmt;
  ComputeExpr_Add : Expr -> Expr -> Expr;
  ConvertSSA : Stmt -> Stmt
}.

(** ** A reference instance of the collaborators *)

Module Model.

Definition DType_eqb (a b : DType) : bool :=
  match a, b with
  | TInt x, TInt y | TUInt x, TUInt y => N.eqb x y
  | _, _ => false
  end.

Definition VarT_eqb (a b : VarT) : bool :=
  String.eqb (name_hint a) (name_hint b) && DType_eqb (var_type a) (var_type b).

Fixpoint subst_expr (v : VarT) (by_ : Expr) (e : Expr) : Expr :=
  match e with
  | IntImm _ _ | UIntImm _ _ => e
  | EVar x => if VarT_eqb x v then by_ else e
  | Add a b => Add (subst_expr v by_ a) (subst_expr v by_ b)
  | Load buf i => Load buf (subst_expr v by_ i)
  | Call f a => Call f (subst_expr v by_ a)
  end.

(** Modelled from the spec: [Substitute] is not part of the sources at
    hand; it returns the statement with every occurrence of the variable
    replaced by the expression bound to it. *)
Fixpoint substitute (s : Stmt) (binding : VarT * Expr) : Stmt :=
  let sub := subst_expr (fst binding) (snd binding) in
  match s with
  | For lv mn ex ft dev body =>
      For lv (sub mn) (sub ex) ft dev (substitute body binding)
  | Store buf value index => Store buf (sub value) (sub index)
  | Evaluate value => Evaluate (sub value)
  | Block a b => Block (substitute a binding) (substitute b binding)
  | IfThenElse c a b =>
      IfThenElse (sub c) (substitute a binding) (substitute b binding)
  | AttrStmt k value body => AttrStmt k (sub value) (substitute body binding)
  | Provide f value => Provide f (sub value)
  end.

Definition type_of_literal (e : Expr) : DType :=
  match e with
  | IntImm t _ | UIntImm t _ => t
  | _ => TInt 32
  end.

(** Modelled from the spec: [ComputeExpr<Add>] (arithmetic/compute_expr.h)
    is not part of the sources at hand; it builds [min + i], folding the
    sum when an operand is zero or both are literals. *)
Definition compute_add (a b : Expr) : Expr :=
  match literal_value a, literal_value b with
  | Some 0, _ => b
  | _, Some 0 => a
  | Some x, Some y => make_const (type_of_literal a) (x + y)
  | _, _ => Add a b
  end.

(** Modelled from the spec: [Simplify] is not part of the sources at hand;
    a literal is returned unchanged, a sum of two literals is folded, and
    any other expression is returned as it is. *)
Definition simplify (e : Expr) : Expr :=
  match e with
  | Add a b =>
      match literal_value a, literal_value b with
      | Some x, Some y => make_const (type_of_literal a) (x + y)
      | _, _ => e
      end
  | _ => e
  end.

(** Modelled from the spec: [ConvertSSA] is not part of the sources at
    hand; it returns an equivalent statement in which every variable is
    bound once.  A statement that binds no variable twice needs no renaming
    and comes back as it is, which is the only case the examples below
    exercise. *)
Definition convert_ssa (s : Stmt) : Stmt := s.

Definition ext : Externals :=
  mkExternals simplify substitute compute_add convert_ssa.

Definition int32 : DType := TInt 32.
Definition lit (n : Z) : Expr := IntImm int32 n.
Definition var_i : VarT := mkVar "i" int32.
Definition var_j : VarT := mkVar "j" int32.
Definition var_n : VarT := mkVar "n" int32.

(** [a[i] = i] *)
Definition store_a (e : Expr) : Stmt := Store "a" e e.

End Model.

(** ** Example programs *)

Module Examples.
Import Model.

(** [for (i, 0, 4) a[i] = i] *)
Definition loop4 : Stmt :=
  For var_i (lit 0) (lit 4) Serial 0 (store_a (EVar var_i)).

Definition store_k (k : Z) : Stmt := store_a (lit k).

Definition right_nested4 : Stmt :=
  Block (store_k 0) (Block (store_k 1) (Block (store_k 2) (store_k 3))).

(** [for (i, 0, 0) a[i] = i] *)
Definition loop0 : Stmt :=
  For var_i (lit 0) (lit 0) Serial 0 (store_a (EVar var_i)).

(** [for (j, 0, 4) for (i, 0, 4) a[i] = i] *)
Definition nest44 : Stmt := For var_j (lit 0) (lit 4) Serial 0 loop4.

(** [for (i, 0, n) a[i] = i], the extent not a constant. *)
Definition loop_n : Stmt :=
  For var_i (lit 0) (EVar var_n) Serial 0 (store_a (EVar var_i)).

(** [for (j, 0, 4) for (i, 0, n) a[i] = i] *)
Definition nest4n : Stmt := For var_j (lit 0) (lit 4) Serial 0 loop_n.

Definition var_u : VarT := mkVar "u" (TUInt 32).
Definition var_l : VarT := mkVar "l" (TInt 64).

(** An unrolled-tagged loop over [2^31] iterations, counted in [uint32]. *)
Definition loop_2_31 : Stmt :=
  For var_u (UIntImm (TUInt 32) 0) (UIntImm (TUInt 32) 2147483648) Unrolled 0
      (store_a (EVar var_u)).

(** A serial loop whose [int64] extent is the literal [-2^32]. *)
Definition loop_minus_2_32 : Stmt :=
  For var_l (IntImm (TInt 64) 0) (IntImm (TInt 64) (-4294967296)) Serial 0
      (store_a (EVar var_l)).

(** Collaborators that share the simplifier of [Model] and nothing else. *)
Definition bare_ext : Externals :=
  mkExternals simplify (fun s _ => s) Add (fun _ => Evaluate (lit 0)).


End Examples.

(** ** Traversal state and results *)

Record State : Type := mkState {
  step_count : Z;
  unroll_depth : Z;
  normal_loop_depth : Z
}.

Definition zero_state : State := mkState 0 0 0.

Inductive Result (A : Type) : Type :=
| OK (a : A)
| Fatal (msg : string).
Arguments OK {A} a.
Arguments Fatal {A} msg.

Definition bind {A B : Type} (r : Result A) (f : A -> Result B) : Result B :=
  match r with
  | OK a => f a
  | Fatal m => Fatal m
  end.

Notation "x <- r ;; k" := (bind r (fun x => k))
  (at level 61, r at next level, right associativity).

(** A rewritten statement, whether it is the very node that was given
    ([same_as]), and the counters afterwards. *)
Record Rewritten : Type := mkRewritten {
  stmt_of : Stmt;
  same : bool;
  state_of : State
}.

(** ** The unroller *)

Section LoopUnroller.

Variable ext : Externals.
Variable auto_max_step_ : Z.
Variable auto_max_depth_ : Z.
Variable explicit_unroll_ : bool.

(** Lines 32-41: the loop extent as the pass resolves it.  [-1] stands for
    an extent that is not a literal; a literal is narrowed to [int]. *)
Definition extent_value (op_extent : Expr) : Z :=
  let extent := Simplify ext op_extent in
  let value := -1 in
  let value := match extent with IntImm _ v1 => Int.to_int v1 | _ => value end in
  let value := match extent with UIntImm _ v2 => Int.to_int v2 | _ => value end in
  value.

(** Lines 43-48: the condition for auto unroll. *)
Definition auto_unroll_cond (for_type : ForType) (st : State) (value : Z) : bool :=
  ForType_eqb for_type Serial &&
  (normal_loop_depth st =? 0) &&
  (value >=? 0) &&
  (unroll_depth st <=? auto_max_depth_) &&
  (Int.mul value (step_count st) <=? auto_max_step_).

(** Lines 50-54: an explicitly unrolled loop must have a constant extent and
    is unrolled whatever the budget says. *)
Definition decide_unroll (for_type : ForType) (st : State) (value : Z)
  : Result bool :=
  let auto_unroll := auto_unroll_cond for_type st value in
  if ForType_eqb for_type Unrolled then
    if value >=? 0 then OK true
    else Fatal "Cannot unroll non-constant loop"
  else OK auto_unroll.

(** Lines 56-61. *)
Definition update_counters (auto_unroll : bool) (value : Z) (st : State) : State :=
  if auto_unroll then
    mkState (Int.mul (step_count st) value)
            (Int.add (unroll_depth st) 1)
            (normal_loop_depth st)
  else
    mkState (step_count st) (unroll_depth st)
            (Int.add (normal_loop_depth st) 1).

(** Lines 71-74: the copy of the body for iteration [i]. *)
Definition unroll_step (loop_var : VarT) (min : Expr) (body : Stmt) (i : Z) : Stmt :=
  Substitute ext body
    (loop_var, ComputeExpr_Add ext min (make_const (var_type loop_var) i)).

(** Lines 68-81: the loop [for (int i = 0; i < value; ++i)], run for the
    [n] iterations that remain from index [i] on; [unrolled] is the
    statement built so far, undefined before the first iteration. *)
Fixpoint unroll_from (loop_var : VarT) (min : Expr) (body : Stmt)
         (n : nat) (i : Z) (unrolled : option Stmt) : option Stmt :=
  match n with
  | O => unrolled
  | S n' =>
      let step := unroll_step loop_var min body i in
      let unrolled' :=
        match unrolled with
        | Some u => Block_make u step
        | None => step
        end in
      unroll_from loop_var min body n' (i + 1) (Some unrolled')
  end.

Definition Evaluate_zero : Stmt := Evaluate (IntImm (TInt 32) 0).

(** Lines 30-91: [Mutate_] on a [For] node, after the default walk has
    rewritten the body.  [stmt] is the loop with its rewritten body,
    [stmt_same] says whether that is still the node the mutator was called
    on.  The loop of lines 69-80 runs at least once where it is reached
    ([value] is positive there), so [unrolled] is defined on return; the
    [None] branch stands for the undefined handle and is never taken
    ([unroll_from_defined] below). *)
Definition Mutate_For_after_body
           (loop_var : VarT) (min extent : Expr) (for_type : ForType)
           (device_api : Z) (body : Stmt) (stmt_same : bool) (st : State)
  : Result Rewritten :=
  let stmt := For loop_var min extent for_type device_api body in
  let value := extent_value extent in
  auto_unroll <- decide_unroll for_type st value ;;
  let st' := update_counters auto_unroll value st in
  if auto_unroll && explicit_unroll_ then
    if value =? 0 then OK (mkRewritten Evaluate_zero false st')
    else
      match unroll_from loop_var min body (Z.to_nat value) 0 None with
      | Some unrolled => OK (mkRewritten unrolled false st')
      | None => OK (mkRewritten Evaluate_zero false st')
      end
  else
    if auto_unroll && negb (ForType_eqb for_type Unrolled) then
      OK (mkRewritten (For loop_var min extent Unrolled device_api body) false st')
    else OK (mkRewritten stmt stmt_same st').

(** Lines 94-102: a store or an evaluated expression is one step; the
    default walk finds nothing to rewrite in it. *)
Definition Mutate_leaf (s : Stmt) (st : State) : Result Rewritten :=
  OK (mkRewritten s true
        (mkState (Int.add (step_count st) 1) (unroll_depth st)
                 (normal_loop_depth st))).

(** Lines 115-117: the counters after a block. *)
Definition merge_block (saved rest : State) : State :=
  mkState (Int.add (step_count rest) (step_count saved))
          (Z.max (unroll_depth rest) (unroll_depth saved))
          (Z.max (normal_loop_depth saved) (normal_loop_depth rest)).

(** The dispatch of [Mutate].  The cases of [IfThenElse], [AttrStmt] and
    [Provide] are the default walk of the base class.

    Modelled from the spec: the base class [IRMutator] (tvm/ir_mutator.h) is
    not part of the sources at hand; a node it handles has its statement
    children rewritten in order and is returned as it is when none of them
    changed; expressions are never changed by this pass. *)
Fixpoint Mutate (s : Stmt) (st : State) : Result Rewritten :=
  match s with
  | For loop_var min extent for_type device_api body =>
      b <- Mutate body st ;;
      Mutate_For_after_body loop_var min extent for_type device_api
                            (stmt_of b) (same b) (state_of b)
  | Store _ _ _ => Mutate_leaf s st
  | Evaluate _ => Mutate_leaf s st
  | Block op_first op_rest =>
      first <- Mutate op_first st ;;
      let saved := state_of first in
      rest <- Mutate op_rest zero_state ;;
      let st' := merge_block saved (state_of rest) in
      if same first && same rest then OK (mkRewritten s true st')
      else OK (mkRewritten (Block_make (stmt_of first) (stmt_of rest)) false st')
  | IfThenElse c op_then op_else =>
      t <- Mutate op_then st ;;
      e <- Mutate op_else (state_of t) ;;
      if same t && same e then OK (mkRewritten s true (state_of e))
      else OK (mkRewritten (IfThenElse c (stmt_of t) (stmt_of e)) false (state_of e))
  | AttrStmt k v op_body =>
      b <- Mutate op_body st ;;
      if same b then OK (mkRewritten s true (state_of b))
      else OK (mkRewritten (AttrStmt k v (stmt_of b)) false (state_of b))
  | Provide _ _ => OK (mkRewritten s true st)
  end.

(** What the entry point hands back: the statement, whether it is the very
    node that came in, and how often the renamer ran. *)
Record Output : Type := mkOutput {
  out_stmt : Stmt;
  out_same : bool;
  ssa_calls : nat
}.

(** Lines 140-153. *)
Definition UnrollLoop (stmt : Stmt) : Result Output :=
  ret <- Mutate stmt zero_state ;;
  if negb (same ret) then OK (mkOutput (ConvertSSA ext (stmt_of ret)) false 1)
  else OK (mkOutput (stmt_of ret) true 0).

(** ** Observing the traversal *)

(** Whether the pass commits to unrolling a loop: forced by the tag, or by
    the automatic condition. *)
Definition unroll_decided (for_type : ForType) (st : State) (value : Z) : bool :=
  ForType_eqb for_type Unrolled || auto_unroll_cond for_type st value.

(** One evaluation of lines 43-54 during a run: the loop, the counters at
    that moment, the enclosing loops with the decision each of them gets
    later in the run ([None] when the run aborts before), and the outcome. *)
Record Decision : Type := mkDecision {
  d_loop_var : VarT;
  d_for_type : ForType;
  d_value : Z;
  d_state : State;
  d_ancestors : list (option bool);
  d_unroll : bool
}.

(** The evaluations a run of [Mutate] goes through, in the order in which
    they happen. *)
Fixpoint decisions (anc : list (option bool)) (s : Stmt) (st : State)
  : list Decision :=
  match s with
  | For loop_var min extent for_type device_api body =>
      let value := extent_value extent in
      match Mutate body st with
      | OK b =>
          let u := unroll_decided for_type (state_of b) value in
          decisions (Some u :: anc) body st ++
          [mkDecision loop_var for_type value (state_of b) anc u]
      | Fatal _ => decisions (None :: anc) body st
      end
  | Store _ _ _ | Evaluate _ | Provide _ _ => []
  | Block op_first op_rest =>
      decisions anc op_first st ++
      match Mutate op_first st with
      | OK _ => decisions anc op_rest zero_state
      | Fatal _ => []
      end
  | IfThenElse _ op_then op_else =>
      decisions anc op_then st ++
      match Mutate op_then st with
      | OK t => decisions anc op_else (state_of t)
      | Fatal _ => []
      end
  | AttrStmt _ _ op_body => decisions anc op_body st
  end.

(** Number of loops in a statement. *)
Fixpoint loop_count (s : Stmt) : Z :=
  match s with
  | For _ _ _ _ _ body => 1 + loop_count body
  | Store _ _ _ | Evaluate _ | Provide _ _ => 0
  | Block a b | IfThenElse _ a b => loop_count a + loop_count b
  | AttrStmt _ _ body => loop_count body
  end.

(** Statements composed with [Block::make] from left to right. *)
Fixpoint chain (first : Stmt) (more : list Stmt) : Stmt :=
  match more with
  | [] => first
  | s :: more' => chain (Block_make first s) more'
  end.




(** The copies of the body for the iterations [0 .. N-1], in that order. *)
Definition iterations (loop_var : VarT) (min : Expr) (body : Stmt) (N : Z)
  : list Stmt :=
  map (fun k => unroll_step loop_var min body (Z.of_nat k)) (seq 0 (Z.to_nat N)).

(** A list of statements composed in order; no statement for no list. *)
Definition sequence_of (l : list Stmt) : option Stmt :=
  match l with
  | [] => None
  | s :: more => Some (chain s more)
  end.

(** Whether a statement contains a loop that is not marked [Unrolled]:
    after the pass, a loop that was not chosen for unrolling. *)
Fixpoint declined_loop_in (s : Stmt) : bool :=
  match s with
  | For _ _ _ for_type _ body =>
      negb (ForType_eqb for_type Unrolled) || declined_loop_in body
  | Store _ _ _ | Evaluate _ | Provide _ _ => false
  | Block a b | IfThenElse _ a b => declined_loop_in a || declined_loop_in b
  | AttrStmt _ _ body => declined_loop_in body
  end.

(** The substitution engine rewrites expressions only: it brings no loop
    into a statement. *)
Definition Substitute_adds_no_loop : Prop :=
  forall s binding,
    declined_loop_in (Substitute ext s binding) = true ->
    declined_loop_in s = true.

(** The number of enclosing loops the run decides to unroll, and the number
    it declines, for one evaluation. *)
Definition ancestors_unrolled (d : Decision) : nat :=
  List.length (filter (fun a => match a with Some true => true | _ => false end)
                      (d_ancestors d)).

Definition ancestors_declined (d : Decision) : nat :=
  List.length (filter (fun a => match a with Some false => true | _ => false end)
                      (d_ancestors d)).

(** The reading of the depth counters as counts over the ancestors. *)
Definition counts_ancestors (d : Decision) : Prop :=
  unroll_depth (d_state d) = Z.of_nat (ancestors_unrolled d) /\
  normal_loop_depth (d_state d) = Z.of_nat (ancestors_declined d).

(** The reading of the zero-extent rule as one that holds in every mode. *)
Definition zero_extent_is_noop : Prop :=
  forall v m e ft dev body st b r,
    Mutate body st = OK b ->
    extent_value e = 0 ->
    decide_unroll ft (state_of b) 0 = OK true ->
    Mutate (For v m e ft dev body) st = OK r ->
    stmt_of r = Evaluate_zero.

(** The scopes with which the blocks of a statement are entered during a
    run, outermost block first. *)
Fixpoint block_entries (s : Stmt) (st : State) : list State :=
  match s with
  | For _ _ _ _ _ body | AttrStmt _ _ body => block_entries body st
  | Store _ _ _ | Evaluate _ | Provide _ _ => []
  | Block op_first op_rest =>
      st :: block_entries op_first st ++ block_entries op_rest zero_state
  | IfThenElse _ op_then op_else =>
      block_entries op_then st ++
      match Mutate op_then st with
      | OK t => block_entries op_else (state_of t)
      | Fatal _ => []
      end
  end.

(** Statements made of loops, stores, evaluations, blocks and the
    one-child kinds of the default walk. *)
Fixpoint conditional_free (s : Stmt) : bool :=
  match s with
  | For _ _ _ _ _ body | AttrStmt _ _ body => conditional_free body
  | Store _ _ _ | Evaluate _ | Provide _ _ => true
  | Block a b => conditional_free a && conditional_free b
  | IfThenElse _ _ _ => false
  end.

(** Statements without a [Block]. *)
Fixpoint block_free (s : Stmt) : bool :=
  match s with
  | For _ _ _ _ _ body | AttrStmt _ _ body => block_free body
  | Store _ _ _ | Evaluate _ | Provide _ _ => true
  | Block _ _ => false
  | IfThenElse _ a b => block_free a && block_free b
  end.

Definition count_unrolled (l : list Decision) : nat :=
  List.length (filter d_unroll l).

Definition count_declined (l : list Decision) : nat :=
  List.length (filter (fun d => negb (d_unroll d)) l).

(** Whether a statement contains a loop tagged [Unrolled]. *)
Fixpoint has_unrolled_tag (s : Stmt) : bool :=
  match s with
  | For _ _ _ for_type _ body =>
      ForType_eqb for_type Unrolled || has_unrolled_tag body
  | Store _ _ _ | Evaluate _ | Provide _ _ => false
  | Block a b | IfThenElse _ a b => has_unrolled_tag a || has_unrolled_tag b
  | AttrStmt _ _ body => has_unrolled_tag body
  end.

(** Whether a statement contains a loop tagged [Unrolled] on which the
    check of line 51 fails. *)
Fixpoint bad_unrolled_in (s : Stmt) : bool :=
  match s with
  | For _ _ extent for_type _ body =>
      (ForType_eqb for_type Unrolled && negb (extent_value extent >=? 0))
      || bad_unrolled_in body
  | Store _ _ _ | Evaluate _ | Provide _ _ => false
  | Block a b | IfThenElse _ a b => bad_unrolled_in a || bad_unrolled_in b
  | AttrStmt _ _ body => bad_unrolled_in body
  end.

(** Number of stores and evaluations in a statement. *)
Fixpoint leaf_count (s : Stmt) : Z :=
  match s with
  | For _ _ _ _ _ body | AttrStmt _ _ body => leaf_count body
  | Store _ _ _ | Evaluate _ => 1
  | Provide _ _ => 0
  | Block a b | IfThenElse _ a b => leaf_count a + leaf_count b
  end.

(** Statements without a loop. *)
Fixpoint loop_free (s : Stmt) : bool :=
  match s with
  | For _ _ _ _ _ _ => false
  | Store _ _ _ | Evaluate _ | Provide _ _ => true
  | Block a b | IfThenElse _ a b => loop_free a && loop_free b
  | AttrStmt _ _ body => loop_free body
  end.

(** [Retagged s s']: [s'] is [s] with some Serial loops marked [Unrolled]
    and nothing else touched. *)
Inductive Retagged : Stmt -> Stmt -> Prop :=
| Retagged_For_kept v m e ft dev body body' :
    Retagged body body' ->
    Retagged (For v m e ft dev body) (For v m e ft dev body')
| Retagged_For_tagged v m e dev body body' :
    Retagged body body' ->
    Retagged (For v m e Serial dev body) (For v m e Unrolled dev body')
| Retagged_Store buf value index :
    Retagged (Store buf value index) (Store buf value index)
| Retagged_Evaluate value : Retagged (Evaluate value) (Evaluate value)
| Retagged_Block a a' b b' :
    Retagged a a' -> Retagged b b' -> Retagged (Block a b) (Block a' b')
| Retagged_IfThenElse c a a' b b' :
    Retagged a a' -> Retagged b b' ->
    Retagged (IfThenElse c a b) (IfThenElse c a' b')
| Retagged_AttrStmt k value body body' :
    Retagged body body' ->
    Retagged (AttrStmt k value body) (AttrStmt k value body')
| Retagged_Provide f value : Retagged (Provide f value) (Provide f value).

(** What a run leaves in the counters, or the diagnostic it aborts with. *)
Definition counters_after (r : Result Rewritten) : Result State :=
  match r with
  | OK x => OK (state_of x)
  | Fatal msg => Fatal msg
  end.

(** The substitution engine brings no [Unrolled] loop into a statement. *)
Definition Substitute_adds_no_tag : Prop :=
  forall s binding,
    has_unrolled_tag (Substitute ext s binding) = true ->
    has_unrolled_tag s = true.

(** The substitution engine keeps the number of stores and evaluations. *)
Definition Substitute_keeps_leaves : Prop :=
  forall s binding, leaf_count (Substitute ext s binding) = leaf_count s.

(** The statements a statement runs in order, blocks flattened. *)
Fixpoint statements (s : Stmt) : list Stmt :=
  match s with
  | Block a b => statements a ++ statements b
  | _ => [s]
  end.

Definition is_block (s : Stmt) : bool :=
  match s with
  | Block _ _ => true
  | _ => false
  end.

(** Statements in the canonical nesting of [Block::make]: no block is the
    first child of a block. *)
Fixpoint canonical (s : Stmt) : bool :=
  match s with
  | For _ _ _ _ _ body | AttrStmt _ _ body => canonical body
  | Store _ _ _ | Evaluate _ | Provide _ _ => true
  | Block a b => negb (is_block a) && canonical a && canonical b
  | IfThenElse _ a b => canonical a && canonical b
  end.

(** * Properties *)

(** ** Machine integers *)

Lemma to_int_in_range (z : Z) : Int.in_range z -> Int.to_int z = z.
Proof.
  unfold Int.in_range, Int.min_int, Int.max_int, Int.to_int. intros H.
  rewrite Z.mod_small; lia.
Qed.

Lemma to_int_range (z : Z) : Int.in_range (Int.to_int z).
Proof.
  unfold Int.in_range, Int.min_int, Int.max_int, Int.to_int.
  pose proof (Z.mod_pos_bound (z + 2 ^ 31) (2 ^ 32) ltac:(lia)). lia.
Qed.

Lemma add_in_range (a b : Z) : Int.in_range (a + b) -> Int.add a b = a + b.
Proof. apply to_int_in_range. Qed.

Lemma mul_in_range (a b : Z) : Int.in_range (a * b) -> Int.mul a b = a * b.
Proof. apply to_int_in_range. Qed.

(** ** The eligibility decision *)

Lemma ForType_eqb_eq (a b : ForType) : ForType_eqb a b = true <-> a = b.
Proof. destruct a, b; simpl; split; intro H; try reflexivity; discriminate. Qed.

(** The automatic condition, in the wrapped arithmetic of the code. *)
Lemma auto_unroll_cond_spec (for_type : ForType) (st : State) (value : Z) :
  auto_unroll_cond for_type st value = true <->
  for_type = Serial /\ normal_loop_depth st = 0 /\ 0 <= value /\
  unroll_depth st <= auto_max_depth_ /\
  Int.mul value (step_count st) <= auto_max_step_.
Proof.
  unfold auto_unroll_cond.
  rewrite !andb_true_iff, ForType_eqb_eq, Z.eqb_eq, Z.geb_le, !Z.leb_le.
  tauto.
Qed.

Lemma decide_unroll_not_tagged (for_type : ForType) (st : State) (value : Z) :
  for_type <> Unrolled ->
  decide_unroll for_type st value = OK (auto_unroll_cond for_type st value).
Proof.
  intros H. unfold decide_unroll.
  destruct (ForType_eqb for_type Unrolled) eqn:E; [|reflexivity].
  apply ForType_eqb_eq in E. contradiction.
Qed.

Lemma decide_unroll_tagged (st : State) (value : Z) :
  decide_unroll Unrolled st value =
  if value >=? 0 then OK true else Fatal "Cannot unroll non-constant loop".
Proof. reflexivity. Qed.

Lemma decide_unroll_decided (for_type : ForType) (st : State) (value : Z) (b : bool) :
  decide_unroll for_type st value = OK b -> b = unroll_decided for_type st value.
Proof.
  unfold decide_unroll, unroll_decided.
  destruct (ForType_eqb for_type Unrolled); simpl.
  - destruct (value >=? 0); congruence.
  - congruence.
Qed.

(** The decision of lines 43-54 on a Serial loop, for the [int] value [N]
    the extent was resolved to, step_count [S], unroll_depth [D] and
    normal_loop_depth 0: true if and only if [N >= 0],
    [D <= max_auto_depth] and [N * S <= max_auto_step] (the product being
    representable as an [int]). *)
Theorem budget_gate (N S D : Z) :
  Int.in_range (N * S) ->
  (decide_unroll Serial (mkState S D 0) N = OK true <->
   N >= 0 /\ D <= auto_max_depth_ /\ N * S <= auto_max_step_) /\
  (~ (N >= 0 /\ D <= auto_max_depth_ /\ N * S <= auto_max_step_) ->
   decide_unroll Serial (mkState S D 0) N = OK false).
Proof.
  intros Hr.
  rewrite decide_unroll_not_tagged by discriminate.
  assert (Hc : auto_unroll_cond Serial (mkState S D 0) N = true <->
               N >= 0 /\ D <= auto_max_depth_ /\ N * S <= auto_max_step_).
  { rewrite auto_unroll_cond_spec. simpl. rewrite (mul_in_range _ _ Hr).
    intuition lia. }
  split.
  - rewrite <- Hc. split; [intros H; now injection H | intros H; now f_equal].
  - intros Hn. f_equal. apply not_true_is_false. now rewrite Hc.
Qed.

(** ** Composing with [Block::make] *)

(** [Block::make] re-nests and nothing more: the statements of the two
    operands follow each other. *)
Lemma statements_Block_make (a b : Stmt) :
  statements (Block_make a b) = statements a ++ statements b.
Proof.
  induction a; cbn [Block_make statements]; try reflexivity.
  now rewrite IHa2, app_assoc.
Qed.

Lemma declined_loop_in_Block_make (a b : Stmt) :
  declined_loop_in (Block_make a b) = declined_loop_in a || declined_loop_in b.
Proof.
  induction a; cbn [Block_make declined_loop_in]; try reflexivity.
  now rewrite IHa2, orb_assoc.
Qed.

Lemma has_unrolled_tag_Block_make (a b : Stmt) :
  has_unrolled_tag (Block_make a b) = has_unrolled_tag a || has_unrolled_tag b.
Proof.
  induction a; cbn [Block_make has_unrolled_tag]; try reflexivity.
  now rewrite IHa2, orb_assoc.
Qed.

Lemma leaf_count_Block_make (a b : Stmt) :
  leaf_count (Block_make a b) = leaf_count a + leaf_count b.
Proof.
  induction a; cbn [Block_make leaf_count]; try reflexivity.
  rewrite IHa2. lia.
Qed.

Lemma Block_make_plain (a b : Stmt) :
  is_block a = false -> Block_make a b = Block a b.
Proof. destruct a; cbn; intros H; try reflexivity. discriminate. Qed.

(** ** Handle identity *)

Ltac inv_ok :=
  repeat match goal with
  | H : OK _ = OK _ |- _ => injection H as H; subst
  | H : Fatal _ = OK _ |- _ => discriminate H
  | H : bind ?r _ = OK _ |- _ =>
      let E := fresh "E" in destruct r eqn:E; simpl in H
  | H : (if ?c then _ else _) = OK _ |- _ =>
      let E := fresh "E" in destruct c eqn:E
  | H : match ?r with OK _ => _ | Fatal _ => _ end = OK _ |- _ =>
      let E := fresh "E" in destruct r eqn:E
  | H : match ?r with Some _ => _ | None => _ end = OK _ |- _ =>
      let E := fresh "E" in destruct r eqn:E
  end.

(** A result flagged as the same node is the statement that was given. *)
Lemma same_sound (s : Stmt) :
  forall st r, Mutate s st = OK r -> same r = true -> stmt_of r = s.
Proof.
  induction s; intros st r H Hs; simpl in H.
  - destruct (Mutate s st) as [b|] eqn:Eb; simpl in H; [|discriminate].
    unfold Mutate_For_after_body in H.
    destruct (decide_unroll for_type (state_of b) (extent_value extent))
      as [u|] eqn:Ed; simpl in H; [|discriminate].
    inv_ok; simpl in *; try discriminate.
    f_equal. eapply IHs; eauto.
  - unfold Mutate_leaf in H. inv_ok. reflexivity.
  - unfold Mutate_leaf in H. inv_ok. reflexivity.
  - inv_ok; simpl in *; try discriminate. reflexivity.
  - inv_ok; simpl in *; try discriminate. reflexivity.
  - inv_ok; simpl in *; try discriminate. reflexivity.
  - inv_ok. reflexivity.
Qed.

(** ** Materialised unrolling *)

Lemma chain_app (s : Stmt) (l1 l2 : list Stmt) :
  chain s (l1 ++ l2) = chain (chain s l1) l2.
Proof. revert s. induction l1; intros s; simpl; auto. Qed.

Lemma unroll_from_some (v : VarT) (m : Expr) (body : Stmt) (n : nat) :
  forall i u,
    unroll_from v m body n i (Some u) =
    Some (chain u (map (fun k => unroll_step v m body (i + Z.of_nat k)) (seq 0 n))).
Proof.
  induction n; intros i u.
  - reflexivity.
  - cbn [unroll_from]. rewrite IHn. cbn [seq map chain].
    rewrite Z.add_0_r. do 2 f_equal.
    rewrite <- seq_shift, map_map. apply map_ext. intros k. f_equal. lia.
Qed.

Lemma unroll_from_iterations (v : VarT) (m : Expr) (body : Stmt) (N : Z) :
  unroll_from v m body (Z.to_nat N) 0 None = sequence_of (iterations v m body N).
Proof.
  unfold iterations. destruct (Z.to_nat N) as [|n]; [reflexivity|].
  cbn [unroll_from seq map sequence_of]. rewrite unroll_from_some.
  do 2 f_equal. rewrite <- seq_shift, map_map. apply map_ext.
  intros k. f_equal. lia.
Qed.

(** The handle returned by lines 69-81 is defined whenever the loop runs. *)
Lemma unroll_from_defined (v : VarT) (m : Expr) (body : Stmt) (N : Z) :
  0 < N -> exists unrolled, unroll_from v m body (Z.to_nat N) 0 None = Some unrolled.
Proof.
  intros H. rewrite unroll_from_iterations. unfold iterations.
  destruct (Z.to_nat N) eqn:E; [lia|]. simpl. eauto.
Qed.

Lemma iterations_length (v : VarT) (m : Expr) (body : Stmt) (N : Z) :
  List.length (iterations v m body N) = Z.to_nat N.
Proof. unfold iterations. now rewrite length_map, length_seq. Qed.

Lemma iterations_nth (v : VarT) (m : Expr) (body : Stmt) (N : Z) (k : nat) :
  (k < Z.to_nat N)%nat ->
  nth_error (iterations v m body N) k = Some (unroll_step v m body (Z.of_nat k)).
Proof.
  intros H. unfold iterations.
  rewrite nth_error_map, nth_error_nth' with (d := O) by (now rewrite length_seq).
  rewrite seq_nth by assumption. reflexivity.
Qed.

Lemma statements_chain (l : list Stmt) :
  forall s, statements (chain s l) = statements s ++ List.concat (map statements l).
Proof.
  induction l as [|a l IH]; intros s; cbn [chain map List.concat].
  - now rewrite app_nil_r.
  - now rewrite IH, statements_Block_make, app_assoc.
Qed.

(** ** Resolving the extent *)

Lemma extent_value_literal (e : Expr) (v : Z) :
  literal_value (Simplify ext e) = Some v -> extent_value e = Int.to_int v.
Proof.
  unfold extent_value. destruct (Simplify ext e); simpl; congruence.
Qed.

Lemma extent_value_unknown (e : Expr) :
  literal_value (Simplify ext e) = None -> extent_value e = -1.
Proof.
  unfold extent_value. destruct (Simplify ext e); simpl; congruence.
Qed.

Lemma extent_value_literal_in_range (e : Expr) (v : Z) :
  literal_value (Simplify ext e) = Some v -> Int.in_range v -> extent_value e = v.
Proof.
  intros H Hr. rewrite (extent_value_literal _ _ H). now apply to_int_in_range.
Qed.

(** X12. Exact expansion, for an extent literal that fits an [int]: a loop
    with bound variable [v], min [m] and extent literal [N > 0] that is
    decided to be unrolled is, in materialize mode, replaced by the copies
    [Substitute body (v -> m + i)], [i = 0 .. N-1] (the literal [i] built
    at the type of [v]), composed with [Block::make] from left to right:
    the statements of the result are the statements of the copies, in that
    order and with nothing else; the loop node itself is gone. *)
Theorem exact_expansion (v : VarT) (m e : Expr) (ft : ForType) (dev : Z)
        (body : Stmt) (st : State) (b : Rewritten) (N : Z) :
  Mutate body st = OK b ->
  literal_value (Simplify ext e) = Some N ->
  Int.in_range N ->
  0 < N ->
  decide_unroll ft (state_of b) N = OK true ->
  explicit_unroll_ = true ->
  exists unrolled,
    Mutate (For v m e ft dev body) st =
      OK (mkRewritten unrolled false (update_counters true N (state_of b))) /\
    sequence_of (iterations v m (stmt_of b) N) = Some unrolled /\
    statements unrolled =
      List.concat (map statements (iterations v m (stmt_of b) N)) /\
    List.length (iterations v m (stmt_of b) N) = Z.to_nat N /\
    forall k, (k < Z.to_nat N)%nat ->
      nth_error (iterations v m (stmt_of b) N) k =
      Some (Substitute ext (stmt_of b)
              (v, ComputeExpr_Add ext m (make_const (var_type v) (Z.of_nat k)))).
Proof.
  intros Hb Hl Hr HN Hd Hx.
  pose proof (extent_value_literal_in_range _ _ Hl Hr) as He.
  destruct (unroll_from_defined v m (stmt_of b) N HN) as [unrolled Hu].
  assert (Hq : sequence_of (iterations v m (stmt_of b) N) = Some unrolled)
    by now rewrite <- unroll_from_iterations.
  exists unrolled. repeat split.
  - cbn [Mutate]. rewrite Hb. cbn [bind]. unfold Mutate_For_after_body.
    rewrite He, Hd, Hx. cbn [bind andb].
    destruct (N =? 0) eqn:E0; [apply Z.eqb_eq in E0; lia|].
    now rewrite Hu.
  - exact Hq.
  - destruct (iterations v m (stmt_of b) N) as [|s0 more];
      cbn [sequence_of] in Hq; [discriminate|].
    injection Hq as Hq. subst unrolled.
    now rewrite statements_chain.
  - apply iterations_length.
  - intros k Hk. now apply iterations_nth.
Qed.

(** ** Explicitly unrolled loops *)

Lemma Mutate_For_unfold (v : VarT) (m e : Expr) (ft : ForType) (dev : Z)
      (body : Stmt) (st : State) (b : Rewritten) :
  Mutate body st = OK b ->
  Mutate (For v m e ft dev body) st =
  Mutate_For_after_body v m e ft dev (stmt_of b) (same b) (state_of b).
Proof. intros H. cbn [Mutate]. now rewrite H. Qed.

Lemma Mutate_For_decided (v : VarT) (m e : Expr) (ft : ForType) (dev : Z)
      (body : Stmt) (same_body : bool) (st : State) (u : bool) :
  decide_unroll ft st (extent_value e) = OK u ->
  exists r, Mutate_For_after_body v m e ft dev body same_body st = OK r /\
            state_of r = update_counters u (extent_value e) st.
Proof.
  intros Hd. unfold Mutate_For_after_body. rewrite Hd. cbn [bind].
  repeat match goal with
         | |- context [if ?c then _ else _] => destruct c
         | |- context [match ?c with Some _ => _ | None => _ end] => destruct c
         end; eexists; split; reflexivity.
Qed.

(** The forced-unroll check on loops tagged [Unrolled], for extents that
    fit an [int]: the pass aborts exactly when the extent is not a
    non-negative literal, and otherwise the loop is unrolled whatever the
    budget and the counters are. *)
Lemma forced_unroll_in_range (v : VarT) (m e : Expr) (dev : Z)
      (body : Stmt) (st : State) (b : Rewritten) :
  Mutate body st = OK b ->
  (literal_value (Simplify ext e) = None ->
   Mutate (For v m e Unrolled dev body) st = Fatal "Cannot unroll non-constant loop") /\
  (forall n, literal_value (Simplify ext e) = Some n -> Int.in_range n ->
     (n < 0 ->
      Mutate (For v m e Unrolled dev body) st = Fatal "Cannot unroll non-constant loop") /\
     (0 <= n ->
      decide_unroll Unrolled (state_of b) (extent_value e) = OK true /\
      exists r, Mutate (For v m e Unrolled dev body) st = OK r)).
Proof.
  intros Hb. rewrite (Mutate_For_unfold _ _ _ _ _ _ _ _ Hb). split.
  - intros Hu. unfold Mutate_For_after_body.
    rewrite decide_unroll_tagged, (extent_value_unknown _ Hu). reflexivity.
  - intros n Hn Hr. rewrite (extent_value_literal_in_range _ _ Hn Hr). split.
    + intros Hneg. unfold Mutate_For_after_body.
      rewrite decide_unroll_tagged, (extent_value_literal_in_range _ _ Hn Hr).
      destruct (n >=? 0) eqn:E; [apply Z.geb_le in E; lia | reflexivity].
    + intros Hpos.
      assert (Hd : decide_unroll Unrolled (state_of b) n = OK true).
      { rewrite decide_unroll_tagged.
        destruct (n >=? 0) eqn:E; [reflexivity|].
        rewrite Z.geb_leb in E. apply Z.leb_gt in E. lia. }
      split; [exact Hd|].
      rewrite <- (extent_value_literal_in_range _ _ Hn Hr) in Hd.
      destruct (Mutate_For_decided v m e Unrolled dev (stmt_of b) (same b) _ _ Hd)
        as [r [Hr' _]].
      eauto.
Qed.

(** ** Zero extent *)

Lemma mul_zero_r (a : Z) : Int.mul a 0 = 0.
Proof. unfold Int.mul. now rewrite Z.mul_0_r. Qed.

(** C5 (amended). Zero-extent collapse: a loop decided to be unrolled whose
    extent resolves to 0 is replaced by the no-op [Evaluate(0)] in
    materialize mode; in tag-only mode the loop stays, with its rewritten
    body and the iteration kind [Unrolled].  In both modes the step count
    of the scope becomes 0. *)
Theorem zero_extent_collapse (v : VarT) (m e : Expr) (ft : ForType) (dev : Z)
        (body : Stmt) (st : State) (b : Rewritten) :
  Mutate body st = OK b ->
  extent_value e = 0 ->
  decide_unroll ft (state_of b) 0 = OK true ->
  exists r,
    Mutate (For v m e ft dev body) st = OK r /\
    step_count (state_of r) = 0 /\
    (explicit_unroll_ = true -> stmt_of r = Evaluate_zero /\ same r = false) /\
    (explicit_unroll_ = false ->
     stmt_of r = For v m e Unrolled dev (stmt_of b)).
Proof.
  intros Hb He Hd. rewrite (Mutate_For_unfold _ _ _ _ _ _ _ _ Hb).
  unfold Mutate_For_after_body. rewrite He, Hd. cbn [bind].
  destruct explicit_unroll_; cbn [andb Z.eqb].
  - eexists. split; [reflexivity|]. cbn. rewrite mul_zero_r.
    repeat split; intros; congruence.
  - destruct (ForType_eqb ft Unrolled) eqn:Et; cbn [negb].
    + apply ForType_eqb_eq in Et. subst ft.
      eexists. split; [reflexivity|]. cbn. rewrite mul_zero_r.
      repeat split; intros; congruence.
    + eexists. split; [reflexivity|]. cbn. rewrite mul_zero_r.
      repeat split; intros; congruence.
Qed.

(** ** Blocks *)


(** The counters after a block, whatever the scope it is entered with: the
    first child runs in the scope of the block, the rest in a fresh one. *)
Lemma Mutate_Block_merge (first rest : Stmt) (st : State) (r1 r2 : Rewritten) :
  Mutate first st = OK r1 ->
  Mutate rest zero_state = OK r2 ->
  exists r, Mutate (Block first rest) st = OK r /\
            state_of r = merge_block (state_of r1) (state_of r2) /\
            stmt_of r =
              (if same r1 && same r2 then Block first rest
               else Block_make (stmt_of r1) (stmt_of r2)) /\
            statements (stmt_of r) =
              statements (stmt_of r1) ++ statements (stmt_of r2) /\
            same r = same r1 && same r2.
Proof.
  intros H1 H2. cbn [Mutate]. rewrite H1. cbn [bind]. rewrite H2. cbn [bind].
  destruct (same r1) eqn:S1, (same r2) eqn:S2; cbn [andb];
    eexists; (split; [reflexivity|]); cbn [state_of stmt_of same];
    repeat split; try apply statements_Block_make.
  now rewrite (same_sound _ _ _ H1 S1), (same_sound _ _ _ H2 S2).
Qed.

(** In a run from the fresh scope over a statement without two-armed
    conditionals every block is entered with the fresh scope: the scope is
    only ever handed down unchanged to a body or to the first child of a
    block, and reset for the rest of a block. *)
Lemma blocks_entered_fresh (s : Stmt) :
  conditional_free s = true ->
  forall st, In st (block_entries s zero_state) -> st = zero_state.
Proof.
  induction s; cbn [conditional_free block_entries]; intros Hc st Hin;
    try contradiction; try discriminate; auto.
  apply andb_true_iff in Hc as [H1 H2].
  destruct Hin as [Hin|Hin]; [now subst|].
  apply in_app_or in Hin as [Hin|Hin]; auto.
Qed.

(** C4. Sequence counter algebra: when the two children of a Sequence,
    each run from a fresh all-zero scope, leave the counters
    [(s1, u1, n1)] and [(s2, u2, n2)], the Sequence run from the fresh scope
    leaves [step_count = s1 + s2] (the sum being representable as an
    [int]), [unroll_depth = max u1 u2] and [normal_loop_depth = max n1 n2];
    each child is rewritten as it is on its own (the Sequence node is
    kept when neither changed, and rebuilt with [Block::make] from the two
    rewritten children otherwise), and the eligibility evaluations inside
    each child are those of the child on its own, so neither sibling's
    decisions see the other's step count. *)
Theorem sequence_counter_algebra (first rest : Stmt) (r1 r2 : Rewritten)
        (anc : list (option bool)) :
  Mutate first zero_state = OK r1 ->
  Mutate rest zero_state = OK r2 ->
  Int.in_range (step_count (state_of r1) + step_count (state_of r2)) ->
  exists r,
    Mutate (Block first rest) zero_state = OK r /\
    step_count (state_of r) = step_count (state_of r1) + step_count (state_of r2) /\
    unroll_depth (state_of r) =
      Z.max (unroll_depth (state_of r1)) (unroll_depth (state_of r2)) /\
    normal_loop_depth (state_of r) =
      Z.max (normal_loop_depth (state_of r1)) (normal_loop_depth (state_of r2)) /\
    stmt_of r =
      (if same r1 && same r2 then Block first rest
       else Block_make (stmt_of r1) (stmt_of r2)) /\
    statements (stmt_of r) =
      statements (stmt_of r1) ++ statements (stmt_of r2) /\
    decisions anc (Block first rest) zero_state =
      decisions anc first zero_state ++ decisions anc rest zero_state.
Proof.
  intros H1 H2 Hr.
  destruct (Mutate_Block_merge _ _ _ _ _ H1 H2) as [r [Hm [Hs [Ht [Hq _]]]]].
  exists r. rewrite Hs. cbn [merge_block step_count unroll_depth normal_loop_depth].
  repeat split; try assumption.
  - rewrite add_in_range; [lia | now rewrite Z.add_comm].
  - apply Z.max_comm.
  - cbn [decisions]. now rewrite H1.
Qed.

(** ** Trees in which nothing is unrolled *)

Lemma unroll_decided_false (ft : ForType) (st : State) (value : Z) :
  unroll_decided ft st value = false -> decide_unroll ft st value = OK false.
Proof.
  unfold unroll_decided, decide_unroll. intros H.
  apply orb_false_iff in H as [Ht Ha]. now rewrite Ht, Ha.
Qed.

Lemma no_unroll_same (s : Stmt) :
  forall anc st,
    (forall d, In d (decisions anc s st) -> d_unroll d = false) ->
    exists st', Mutate s st = OK (mkRewritten s true st').
Proof.
  induction s; intros anc st H; cbn [decisions] in H; cbn [Mutate].
  - destruct (Mutate s st) as [b|msg] eqn:Eb.
    + destruct (IHs (Some (unroll_decided for_type (state_of b) (extent_value extent)) :: anc) st)
        as [st' Hs].
      { intros d Hd. apply H, in_or_app. now left. }
      rewrite Eb in Hs. injection Hs as Hs. subst b. cbn [bind stmt_of same state_of] in *.
      assert (Hu : unroll_decided for_type st' (extent_value extent) = false).
      { apply (H (mkDecision loop_var for_type (extent_value extent) st' anc
                             (unroll_decided for_type st' (extent_value extent)))).
        apply in_or_app. right. now left. }
      unfold Mutate_For_after_body. rewrite (unroll_decided_false _ _ _ Hu).
      cbn [bind andb]. eauto.
    + destruct (IHs (None :: anc) st H) as [st' Hs]. congruence.
  - unfold Mutate_leaf. eauto.
  - unfold Mutate_leaf. eauto.
  - destruct (IHs1 anc st) as [st1 H1].
    { intros d Hd. apply H, in_or_app. now left. }
    rewrite H1 in H. rewrite H1. cbn [bind].
    destruct (IHs2 anc zero_state) as [st2 H2].
    { intros d Hd. apply H, in_or_app. now right. }
    rewrite H2. cbn [bind same andb]. eauto.
  - destruct (IHs1 anc st) as [st1 H1].
    { intros d Hd. apply H, in_or_app. now left. }
    rewrite H1 in H. rewrite H1. cbn [bind state_of] in *.
    destruct (IHs2 anc st1) as [st2 H2].
    { intros d Hd. apply H, in_or_app. now right. }
    rewrite H2. cbn [bind same andb]. eauto.
  - destruct (IHs anc st H) as [st' Hs]. rewrite Hs. cbn [bind same]. eauto.
  - eauto.
Qed.

(** C6. Identity preservation: when no loop of the tree is found eligible
    for unrolling, the entry point returns the very node it was given and
    the single-assignment renamer is not run; whenever the mutator hands
    back the node it was given, so does the entry point, without running the
    renamer; and whenever the mutator hands back another node, the entry
    point runs the renamer exactly once, on the rewritten tree, and returns
    what the renamer gives. *)
Theorem identity_preservation (s : Stmt) :
  ((forall d, In d (decisions [] s zero_state) -> d_unroll d = false) ->
   UnrollLoop s = OK (mkOutput s true 0)) /\
  (forall r, Mutate s zero_state = OK r -> same r = true ->
     UnrollLoop s = OK (mkOutput s true 0)) /\
  (forall r, Mutate s zero_state = OK r -> same r = false ->
     UnrollLoop s = OK (mkOutput (ConvertSSA ext (stmt_of r)) false 1)).
Proof.
  split; [|split].
  - intros H. destruct (no_unroll_same s [] zero_state H) as [st' Hs].
    unfold UnrollLoop. now rewrite Hs.
  - intros r Hr Hs. unfold UnrollLoop. rewrite Hr. cbn [bind].
    rewrite Hs. cbn [negb]. now rewrite (same_sound _ _ _ Hr Hs).
  - intros r Hr Hs. unfold UnrollLoop. rewrite Hr. cbn [bind].
    now rewrite Hs.
Qed.

(** ** Loops that stay in the body *)

Lemma loop_count_nonneg (s : Stmt) : 0 <= loop_count s.
Proof. induction s; cbn [loop_count]; lia. Qed.

Lemma Mutate_For_state (v : VarT) (m e : Expr) (ft : ForType) (dev : Z)
      (body : Stmt) (st : State) (r : Rewritten) :
  Mutate (For v m e ft dev body) st = OK r ->
  exists b u,
    Mutate body st = OK b /\
    decide_unroll ft (state_of b) (extent_value e) = OK u /\
    state_of r = update_counters u (extent_value e) (state_of b).
Proof.
  cbn [Mutate]. intros H.
  destruct (Mutate body st) as [b|] eqn:Eb; cbn [bind] in H; [|discriminate].
  destruct (decide_unroll ft (state_of b) (extent_value e)) as [u|] eqn:Ed.
  - destruct (Mutate_For_decided v m e ft dev (stmt_of b) (same b) _ _ Ed)
      as [r' [Hr' Hs]].
    exists b, u. split; [reflexivity|]. split; [exact Ed|]. congruence.
  - unfold Mutate_For_after_body in H. rewrite Ed in H. discriminate.
Qed.

(** [normal_loop_depth] never decreases during a run, grows by at most the
    number of loops visited, and is positive once a loop was declined. *)
Lemma normal_loop_depth_bounds (s : Stmt) :
  forall anc st r,
    Mutate s st = OK r ->
    0 <= normal_loop_depth st ->
    normal_loop_depth st + loop_count s <= Int.max_int ->
    normal_loop_depth st <= normal_loop_depth (state_of r)
      <= normal_loop_depth st + loop_count s /\
    ((exists d, In d (decisions anc s st) /\ d_unroll d = false) ->
     1 <= normal_loop_depth (state_of r)).
Proof.
  induction s; intros anc st r H H0 Hmax; cbn [loop_count] in Hmax |- *.
  - destruct (Mutate_For_state _ _ _ _ _ _ _ _ H) as [b [u [Hb [Hd Hs]]]].
    pose proof (loop_count_nonneg s) as Hlc.
    destruct (IHs (Some (unroll_decided for_type (state_of b) (extent_value extent)) :: anc)
                  st b Hb H0 ltac:(lia)) as [Hbd Hex].
    rewrite Hs. apply decide_unroll_decided in Hd.
    cbn [decisions]. rewrite Hb.
    destruct u; cbn [update_counters normal_loop_depth].
    + split; [lia|]. intros [d [Hin Hf]]. apply in_app_or in Hin as [Hin|Hin].
      * apply Hex. eauto.
      * destruct Hin as [Hin|[]]. subst d. cbn in Hf. congruence.
    + rewrite add_in_range
        by (unfold Int.in_range, Int.min_int, Int.max_int in *; lia).
      split; [lia|]. intros _. lia.
  - cbn in H. injection H as H. subst r. cbn. split; [lia|]. intros [d [[] _]].
  - cbn in H. injection H as H. subst r. cbn. split; [lia|]. intros [d [[] _]].
  - cbn [Mutate] in H.
    destruct (Mutate s1 st) as [r1|] eqn:E1; cbn [bind] in H; [|discriminate].
    destruct (Mutate s2 zero_state) as [r2|] eqn:E2; cbn [bind] in H; [|discriminate].
    pose proof (loop_count_nonneg s1). pose proof (loop_count_nonneg s2).
    destruct (IHs1 anc st r1 E1 H0 ltac:(lia)) as [B1 X1].
    destruct (IHs2 anc zero_state r2 E2
                   ltac:(cbn [zero_state normal_loop_depth]; lia)
                   ltac:(cbn [zero_state normal_loop_depth]; lia)) as [B2 X2].
    cbn [zero_state normal_loop_depth] in B2.
    assert (Hs : normal_loop_depth (state_of r) =
                 Z.max (normal_loop_depth (state_of r1)) (normal_loop_depth (state_of r2))).
    { destruct (same r1 && same r2); injection H as H; subst r; reflexivity. }
    rewrite Hs. split; [lia|].
    cbn [decisions]. rewrite E1. intros [d [Hin Hf]].
    apply in_app_or in Hin as [Hin|Hin].
    + assert (1 <= normal_loop_depth (state_of r1)) by (apply X1; eauto). lia.
    + assert (1 <= normal_loop_depth (state_of r2)) by (apply X2; eauto). lia.
  - cbn [Mutate] in H.
    destruct (Mutate s1 st) as [r1|] eqn:E1; cbn [bind] in H; [|discriminate].
    destruct (Mutate s2 (state_of r1)) as [r2|] eqn:E2; cbn [bind] in H; [|discriminate].
    pose proof (loop_count_nonneg s1). pose proof (loop_count_nonneg s2).
    destruct (IHs1 anc st r1 E1 H0 ltac:(lia)) as [B1 X1].
    destruct (IHs2 anc (state_of r1) r2 E2 ltac:(lia) ltac:(lia)) as [B2 X2].
    assert (Hs : state_of r = state_of r2).
    { destruct (same r1 && same r2); injection H as H; subst r; reflexivity. }
    rewrite Hs. split; [lia|].
    cbn [decisions]. rewrite E1. intros [d [Hin Hf]].
    apply in_app_or in Hin as [Hin|Hin].
    + assert (1 <= normal_loop_depth (state_of r1)) by (apply X1; eauto). lia.
    + apply X2; eauto.
  - cbn [Mutate] in H.
    destruct (Mutate s st) as [b|] eqn:Eb; cbn [bind] in H; [|discriminate].
    destruct (IHs anc st b Eb H0 Hmax) as [B X].
    assert (Hs : state_of r = state_of b).
    { destruct (same b); injection H as H; subst r; reflexivity. }
    rewrite Hs. split; [lia|]. cbn [decisions]. exact X.
  - cbn in H. injection H as H. subst r. cbn. split; [lia|]. intros [d [[] _]].
Qed.

Lemma declined_loop_in_chain (l : list Stmt) :
  forall s, declined_loop_in (chain s l) = true ->
            declined_loop_in s = true \/
            exists x, In x l /\ declined_loop_in x = true.
Proof.
  induction l as [|a l IH]; intros s H; cbn [chain] in H.
  - now left.
  - apply IH in H as [H|[x [Hin Hx]]].
    + rewrite declined_loop_in_Block_make in H. apply orb_true_iff in H as [H|H].
      * now left.
      * right. exists a. split; [now left | assumption].
    + right. exists x. split; [now right | assumption].
Qed.

Lemma declined_loop_in_iterations (v : VarT) (m : Expr) (body : Stmt) (N : Z)
      (unrolled : Stmt) :
  Substitute_adds_no_loop ->
  sequence_of (iterations v m body N) = Some unrolled ->
  declined_loop_in unrolled = true ->
  declined_loop_in body = true.
Proof.
  intros HS Hq Hd.
  assert (Hall : forall x, In x (iterations v m body N) ->
                           declined_loop_in x = true -> declined_loop_in body = true).
  { intros x Hin Hx. unfold iterations in Hin. apply in_map_iff in Hin as [k [Hk _]].
    subst x. unfold unroll_step in Hx. eapply HS; eauto. }
  destruct (iterations v m body N) as [|s0 more]; cbn [sequence_of] in Hq; [discriminate|].
  injection Hq as Hq. subst unrolled.
  apply declined_loop_in_chain in Hd as [Hd|[x [Hin Hx]]].
  - apply (Hall s0); [now left | assumption].
  - apply (Hall x); [now right | assumption].
Qed.

(** A loop that is still there after the rewrite, and not marked
    [Unrolled], was declined during the run. *)
Lemma declined_loop_was_decided (s : Stmt) :
  Substitute_adds_no_loop ->
  forall anc st r,
    Mutate s st = OK r ->
    declined_loop_in (stmt_of r) = true ->
    exists d, In d (decisions anc s st) /\ d_unroll d = false.
Proof.
  intros HS. induction s; intros anc st r H Hd.
  - cbn [Mutate] in H.
    destruct (Mutate s st) as [b|] eqn:Eb; cbn [bind] in H; [|discriminate].
    cbn [decisions]. rewrite Eb.
    set (u0 := unroll_decided for_type (state_of b) (extent_value extent)).
    assert (Hbody : declined_loop_in (stmt_of b) = true ->
                    exists d, In d (decisions (Some u0 :: anc) s st ++
                      [mkDecision loop_var for_type (extent_value extent)
                                  (state_of b) anc u0]) /\ d_unroll d = false).
    { intros Hb. destruct (IHs (Some u0 :: anc) st b Eb Hb) as [d [Hin Hf]].
      exists d. split; [apply in_or_app; now left | assumption]. }
    unfold Mutate_For_after_body in H.
    destruct (decide_unroll for_type (state_of b) (extent_value extent))
      as [u|] eqn:Ed; cbn [bind] in H; [|discriminate].
    pose proof (decide_unroll_decided _ _ _ _ Ed) as Hu. fold u0 in Hu.
    destruct (u && explicit_unroll_) eqn:Eux.
    + destruct (extent_value extent =? 0).
      * injection H as H. subst r. discriminate.
      * rewrite unroll_from_iterations in H.
        destruct (sequence_of (iterations loop_var min (stmt_of b) (extent_value extent)))
          as [unrolled|] eqn:Eq; injection H as H; subst r; cbn [stmt_of] in Hd.
        -- apply Hbody. eapply declined_loop_in_iterations; eauto.
        -- discriminate.
    + destruct (u && negb (ForType_eqb for_type Unrolled)) eqn:Eut;
        injection H as H; subst r; cbn [stmt_of declined_loop_in] in Hd.
      * cbn in Hd. now apply Hbody.
      * apply orb_true_iff in Hd as [Hd|Hd]; [|now apply Hbody].
        rewrite Hd, andb_true_r in Eut. subst u.
        eexists. split; [apply in_or_app; right; now left|]. cbn. congruence.
  - cbn in H. injection H as H. subst r. discriminate.
  - cbn in H. injection H as H. subst r. discriminate.
  - cbn [Mutate] in H.
    destruct (Mutate s1 st) as [r1|] eqn:E1; cbn [bind] in H; [|discriminate].
    destruct (Mutate s2 zero_state) as [r2|] eqn:E2; cbn [bind] in H; [|discriminate].
    cbn [decisions]. rewrite E1.
    assert (Hd' : declined_loop_in (stmt_of r1) = true \/
                  declined_loop_in (stmt_of r2) = true).
    { destruct (same r1) eqn:S1, (same r2) eqn:S2; cbn [andb] in H;
        injection H as H; subst r; cbn [stmt_of declined_loop_in] in Hd;
        rewrite ?declined_loop_in_Block_make in Hd;
        try (now apply orb_true_iff in Hd).
      rewrite (same_sound _ _ _ E1 S1), (same_sound _ _ _ E2 S2).
      now apply orb_true_iff in Hd. }
    destruct Hd' as [Hd'|Hd'].
    + destruct (IHs1 anc st r1 E1 Hd') as [d [Hin Hf]].
      exists d. split; [apply in_or_app; now left | assumption].
    + destruct (IHs2 anc zero_state r2 E2 Hd') as [d [Hin Hf]].
      exists d. split; [apply in_or_app; now right | assumption].
  - cbn [Mutate] in H.
    destruct (Mutate s1 st) as [r1|] eqn:E1; cbn [bind] in H; [|discriminate].
    destruct (Mutate s2 (state_of r1)) as [r2|] eqn:E2; cbn [bind] in H; [|discriminate].
    cbn [decisions]. rewrite E1.
    assert (Hd' : declined_loop_in (stmt_of r1) = true \/
                  declined_loop_in (stmt_of r2) = true).
    { destruct (same r1) eqn:S1, (same r2) eqn:S2; cbn [andb] in H;
        injection H as H; subst r; cbn [stmt_of declined_loop_in] in Hd;
        rewrite ?declined_loop_in_Block_make in Hd;
        try (now apply orb_true_iff in Hd).
      rewrite (same_sound _ _ _ E1 S1), (same_sound _ _ _ E2 S2).
      now apply orb_true_iff in Hd. }
    destruct Hd' as [Hd'|Hd'].
    + destruct (IHs1 anc st r1 E1 Hd') as [d [Hin Hf]].
      exists d. split; [apply in_or_app; now left | assumption].
    + destruct (IHs2 anc (state_of r1) r2 E2 Hd') as [d [Hin Hf]].
      exists d. split; [apply in_or_app; now right | assumption].
  - cbn [Mutate] in H.
    destruct (Mutate s st) as [b|] eqn:Eb; cbn [bind] in H; [|discriminate].
    cbn [decisions]. apply (IHs anc st b Eb).
    destruct (same b) eqn:Sb; injection H as H; subst r;
      cbn [stmt_of declined_loop_in] in Hd; [|assumption].
    now rewrite (same_sound _ _ _ Eb Sb).
  - cbn in H. injection H as H. subst r. discriminate.
Qed.

Lemma Mutate_For_declined (v : VarT) (m e : Expr) (ft : ForType) (dev : Z)
      (body : Stmt) (st : State) (b : Rewritten) :
  Mutate body st = OK b ->
  decide_unroll ft (state_of b) (extent_value e) = OK false ->
  Mutate (For v m e ft dev body) st =
  OK (mkRewritten (For v m e ft dev (stmt_of b)) (same b)
        (update_counters false (extent_value e) (state_of b))).
Proof.
  intros Hb Hd. rewrite (Mutate_For_unfold _ _ _ _ _ _ _ _ Hb).
  unfold Mutate_For_after_body. now rewrite Hd.
Qed.

(** X11. Budget gate, for an extent literal that fits an [int]: a Serial
    loop with extent literal [N], evaluated (after its body) with
    step_count [S], unroll_depth [D] and normal_loop_depth 0, is unrolled
    when [N >= 0], [D <= max_auto_depth] and [N * S <= max_auto_step], the
    counters becoming [(S * N, D + 1, 0)]; when one of the three fails it
    is returned around its rewritten body and normal_loop_depth is bumped
    (the product being representable as an [int]). *)
Theorem budget_gate_on_loop (v : VarT) (m e : Expr) (dev : Z)
        (body : Stmt) (st : State) (b : Rewritten) (N : Z) :
  Mutate body st = OK b ->
  literal_value (Simplify ext e) = Some N ->
  Int.in_range N ->
  normal_loop_depth (state_of b) = 0 ->
  Int.in_range (N * step_count (state_of b)) ->
  (N >= 0 /\ unroll_depth (state_of b) <= auto_max_depth_ /\
   N * step_count (state_of b) <= auto_max_step_ ->
   exists r, Mutate (For v m e Serial dev body) st = OK r /\
             state_of r = update_counters true N (state_of b)) /\
  (~ (N >= 0 /\ unroll_depth (state_of b) <= auto_max_depth_ /\
      N * step_count (state_of b) <= auto_max_step_) ->
   Mutate (For v m e Serial dev body) st =
     OK (mkRewritten (For v m e Serial dev (stmt_of b)) (same b)
           (update_counters false N (state_of b)))).
Proof.
  intros Hb Hl Hr Hn Hp.
  pose proof (extent_value_literal_in_range _ _ Hl Hr) as He.
  assert (Hc : auto_unroll_cond Serial (state_of b) N = true <->
               N >= 0 /\ unroll_depth (state_of b) <= auto_max_depth_ /\
               N * step_count (state_of b) <= auto_max_step_).
  { rewrite auto_unroll_cond_spec, (mul_in_range _ _ Hp). intuition lia. }
  split.
  - intros H. apply Hc in H.
    rewrite (Mutate_For_unfold _ _ _ _ _ _ _ _ Hb). rewrite <- He.
    apply Mutate_For_decided. rewrite He.
    rewrite decide_unroll_not_tagged by discriminate. now f_equal.
  - intros H. rewrite <- He. apply (Mutate_For_declined _ _ _ _ _ _ _ _ Hb).
    rewrite He, decide_unroll_not_tagged by discriminate. f_equal.
    apply not_true_is_false. now rewrite Hc.
Qed.

(** C9. A Serial loop whose rewritten body still contains a loop that was
    not chosen for unrolling is never unrolled automatically:
    [normal_loop_depth] is positive when its eligibility is evaluated, and
    the loop is returned with its rewritten body; a loop tagged [Unrolled]
    (with a resolved non-negative extent) is unrolled all the same. *)
Theorem declined_inner_loop_blocks_auto_unroll
        (v : VarT) (m e : Expr) (dev : Z) (body : Stmt) (st : State)
        (b : Rewritten) :
  Substitute_adds_no_loop ->
  Mutate body st = OK b ->
  declined_loop_in (stmt_of b) = true ->
  0 <= normal_loop_depth st ->
  normal_loop_depth st + loop_count body <= Int.max_int ->
  0 < normal_loop_depth (state_of b) /\
  decide_unroll Serial (state_of b) (extent_value e) = OK false /\
  Mutate (For v m e Serial dev body) st =
    OK (mkRewritten (For v m e Serial dev (stmt_of b)) (same b)
          (update_counters false (extent_value e) (state_of b))) /\
  (0 <= extent_value e ->
   decide_unroll Unrolled (state_of b) (extent_value e) = OK true /\
   exists r, Mutate (For v m e Unrolled dev body) st = OK r /\
             state_of r = update_counters true (extent_value e) (state_of b)).
Proof.
  intros HS Hb Hd H0 Hmax.
  destruct (declined_loop_was_decided body HS [] st b Hb Hd) as [d Hdec].
  destruct (normal_loop_depth_bounds body [] st b Hb H0 Hmax) as [_ Hpos].
  specialize (Hpos (ex_intro _ d Hdec)).
  assert (Hs : decide_unroll Serial (state_of b) (extent_value e) = OK false).
  { rewrite decide_unroll_not_tagged by discriminate. f_equal.
    apply not_true_is_false. rewrite auto_unroll_cond_spec. lia. }
  split; [lia|]. split; [exact Hs|]. split.
  - now apply Mutate_For_declined.
  - intros Hv.
    assert (Hu : decide_unroll Unrolled (state_of b) (extent_value e) = OK true).
    { rewrite decide_unroll_tagged.
      destruct (extent_value e >=? 0) eqn:E; [reflexivity|].
      rewrite Z.geb_leb in E. apply Z.leb_gt in E. lia. }
    split; [exact Hu|].
    rewrite (Mutate_For_unfold _ _ _ _ _ _ _ _ Hb).
    now apply Mutate_For_decided.
Qed.

(** ** What the depth counters count *)

Lemma count_unrolled_app (l1 l2 : list Decision) :
  count_unrolled (l1 ++ l2) = (count_unrolled l1 + count_unrolled l2)%nat.
Proof. unfold count_unrolled. now rewrite filter_app, length_app. Qed.

Lemma count_declined_app (l1 l2 : list Decision) :
  count_declined (l1 ++ l2) = (count_declined l1 + count_declined l2)%nat.
Proof. unfold count_declined. now rewrite filter_app, length_app. Qed.

(** Without a [Block] in the way every evaluation bumps exactly one of the
    two depth counters. *)
Lemma depth_counters_block_free (s : Stmt) :
  block_free s = true ->
  forall anc st r,
    Mutate s st = OK r ->
    0 <= unroll_depth st -> 0 <= normal_loop_depth st ->
    unroll_depth st + loop_count s <= Int.max_int ->
    normal_loop_depth st + loop_count s <= Int.max_int ->
    unroll_depth (state_of r) =
      unroll_depth st + Z.of_nat (count_unrolled (decisions anc s st)) /\
    normal_loop_depth (state_of r) =
      normal_loop_depth st + Z.of_nat (count_declined (decisions anc s st)) /\
    Z.of_nat (count_unrolled (decisions anc s st)) +
      Z.of_nat (count_declined (decisions anc s st)) <= loop_count s.
Proof.
  induction s; intros Hbf anc st r H Hu0 Hn0 Hu Hn;
    cbn [block_free] in Hbf; cbn [loop_count] in Hu, Hn |- *.
  - destruct (Mutate_For_state _ _ _ _ _ _ _ _ H) as [b [u [Hb [Hd Hs]]]].
    pose proof (loop_count_nonneg s) as Hlc.
    cbn [decisions]. rewrite Hb.
    destruct (IHs Hbf (Some (unroll_decided for_type (state_of b) (extent_value extent)) :: anc)
                  st b Hb Hu0 Hn0 ltac:(lia) ltac:(lia)) as [Iu [In_ Ic]].
    rewrite count_unrolled_app, count_declined_app, Hs.
    apply decide_unroll_decided in Hd. rewrite <- Hd in Iu, In_, Ic |- *.
    unfold count_unrolled at 2 4, count_declined at 2 4.
    destruct u; cbn [update_counters unroll_depth normal_loop_depth filter
                     d_unroll negb List.length].
    + rewrite add_in_range
        by (unfold Int.in_range, Int.min_int, Int.max_int in *; lia).
      lia.
    + rewrite add_in_range
        by (unfold Int.in_range, Int.min_int, Int.max_int in *; lia).
      lia.
  - cbn in H. injection H as H. subst r. cbn. lia.
  - cbn in H. injection H as H. subst r. cbn. lia.
  - discriminate.
  - apply andb_true_iff in Hbf as [Hb1 Hb2]. cbn [Mutate] in H.
    destruct (Mutate s1 st) as [r1|] eqn:E1; cbn [bind] in H; [|discriminate].
    destruct (Mutate s2 (state_of r1)) as [r2|] eqn:E2; cbn [bind] in H; [|discriminate].
    pose proof (loop_count_nonneg s1). pose proof (loop_count_nonneg s2).
    destruct (IHs1 Hb1 anc st r1 E1 Hu0 Hn0 ltac:(lia) ltac:(lia)) as [Iu1 [In1 Ic1]].
    destruct (IHs2 Hb2 anc (state_of r1) r2 E2 ltac:(lia) ltac:(lia)
                   ltac:(lia) ltac:(lia)) as [Iu2 [In2 Ic2]].
    assert (Hs : state_of r = state_of r2).
    { destruct (same r1 && same r2); injection H as H; subst r; reflexivity. }
    cbn [decisions]. rewrite E1, count_unrolled_app, count_declined_app, Hs. lia.
  - cbn [Mutate] in H.
    destruct (Mutate s st) as [b|] eqn:Eb; cbn [bind] in H; [|discriminate].
    assert (Hs : state_of r = state_of b).
    { destruct (same b); injection H as H; subst r; reflexivity. }
    cbn [decisions]. rewrite Hs. now apply IHs.
  - cbn in H. injection H as H. subst r. cbn. lia.
Qed.

(** C8 (amended). The traversal is bottom-up: when the eligibility of a
    loop is evaluated none of its ancestors has been decided yet, and the
    depth counters tell about the loops inside its body.  For a loop whose
    body holds no Sequence, [unroll_depth] is its value on entry plus the
    number of loops in the body that were decided to be unrolled, and
    [normal_loop_depth] its value on entry plus the number of loops in the
    body that were declined (the counts staying within [int]). *)
Theorem depth_counters_count_body
        (v : VarT) (m e : Expr) (ft : ForType) (dev : Z) (body : Stmt)
        (st : State) (b : Rewritten) (anc : list (option bool)) :
  block_free body = true ->
  Mutate body st = OK b ->
  0 <= unroll_depth st -> 0 <= normal_loop_depth st ->
  unroll_depth st + loop_count body <= Int.max_int ->
  normal_loop_depth st + loop_count body <= Int.max_int ->
  exists inner d,
    decisions anc (For v m e ft dev body) st = inner ++ [d] /\
    inner = decisions (Some (d_unroll d) :: anc) body st /\
    d_ancestors d = anc /\
    d_state d = state_of b /\
    unroll_depth (d_state d) =
      unroll_depth st + Z.of_nat (count_unrolled inner) /\
    normal_loop_depth (d_state d) =
      normal_loop_depth st + Z.of_nat (count_declined inner).
Proof.
  intros Hbf Hb Hu0 Hn0 Hu Hn.
  cbn [decisions]. rewrite Hb.
  eexists. eexists. split; [reflexivity|]. cbn [d_unroll d_ancestors d_state].
  split; [reflexivity|]. split; [reflexivity|]. split; [reflexivity|].
  destruct (depth_counters_block_free body Hbf
              (Some (unroll_decided ft (state_of b) (extent_value e)) :: anc)
              st b Hb Hu0 Hn0 Hu Hn) as [Iu [In_ _]].
  split; assumption.
Qed.

(** ** Negative extents *)

(** A Serial loop whose extent is a negative literal that fits an [int] is
    handled as one whose extent is not a literal at all: no failure, no
    unrolling, the loop kept around its rewritten body and
    [normal_loop_depth] bumped. *)
Lemma negative_extent_in_range
      (v : VarT) (m e e' : Expr) (dev : Z) (body : Stmt) (st : State)
      (b : Rewritten) (n : Z) :
  Mutate body st = OK b ->
  literal_value (Simplify ext e) = Some n -> Int.in_range n -> n < 0 ->
  literal_value (Simplify ext e') = None ->
  let st' := mkState (step_count (state_of b)) (unroll_depth (state_of b))
                     (Int.add (normal_loop_depth (state_of b)) 1) in
  Mutate (For v m e Serial dev body) st =
    OK (mkRewritten (For v m e Serial dev (stmt_of b)) (same b) st') /\
  Mutate (For v m e' Serial dev body) st =
    OK (mkRewritten (For v m e' Serial dev (stmt_of b)) (same b) st').
Proof.
  intros Hb Hn Hr Hneg Hu st'.
  assert (Hd : forall x, extent_value x < 0 ->
             decide_unroll Serial (state_of b) (extent_value x) = OK false).
  { intros x Hx. rewrite decide_unroll_not_tagged by discriminate. f_equal.
    apply not_true_is_false. rewrite auto_unroll_cond_spec. lia. }
  split; rewrite (Mutate_For_declined _ _ _ _ _ _ _ _ Hb); try reflexivity;
    apply Hd.
  - rewrite (extent_value_literal_in_range _ _ Hn Hr). exact Hneg.
  - rewrite (extent_value_unknown _ Hu). lia.
Qed.

(** ** When the pass aborts *)

(** X1. The pass aborts exactly on the trees that contain an
    [Unrolled]-tagged loop whose resolved extent is negative (not a
    literal, or a literal that is negative once narrowed to [int]), always
    with the diagnostic of line 52; the counters on entry, the budget and
    the mode play no part in it. *)
Theorem aborts_exactly_on_bad_unrolled_loop (s : Stmt) :
  forall st,
    (bad_unrolled_in s = true ->
     Mutate s st = Fatal "Cannot unroll non-constant loop") /\
    (bad_unrolled_in s = false -> exists r, Mutate s st = OK r).
Proof.
  induction s; intros st; cbn [bad_unrolled_in Mutate].
  - destruct (IHs st) as [Hbad Hgood].
    destruct (bad_unrolled_in s).
    + rewrite orb_true_r. split; [|discriminate].
      intros _. now rewrite (Hbad eq_refl).
    + rewrite orb_false_r. destruct (Hgood eq_refl) as [b Hb].
      rewrite Hb. cbn [bind].
      destruct (ForType_eqb for_type Unrolled) eqn:Et; cbn [andb].
      * apply ForType_eqb_eq in Et. subst for_type.
        destruct (extent_value extent >=? 0) eqn:Ev; cbn [negb].
        -- split; [discriminate|]. intros _.
           destruct (Mutate_For_decided loop_var min extent Unrolled device_api
                       (stmt_of b) (same b) (state_of b) true) as [r [Hr _]].
           { rewrite decide_unroll_tagged. now rewrite Ev. }
           eauto.
        -- split; [|discriminate]. intros _.
           unfold Mutate_For_after_body.
           rewrite decide_unroll_tagged. now rewrite Ev.
      * split; [discriminate|]. intros _.
        destruct (Mutate_For_decided loop_var min extent for_type device_api
                    (stmt_of b) (same b) (state_of b)
                    (auto_unroll_cond for_type (state_of b) (extent_value extent)))
          as [r [Hr _]].
        { apply decide_unroll_not_tagged. intros ->. discriminate. }
        eauto.
  - split; [discriminate|]. intros _. unfold Mutate_leaf. eauto.
  - split; [discriminate|]. intros _. unfold Mutate_leaf. eauto.
  - destruct (IHs1 st) as [Hbad1 Hgood1].
    destruct (IHs2 zero_state) as [Hbad2 Hgood2].
    destruct (bad_unrolled_in s1); cbn [orb].
    + split; [|discriminate]. intros _. now rewrite (Hbad1 eq_refl).
    + destruct (Hgood1 eq_refl) as [r1 H1]. rewrite H1. cbn [bind].
      destruct (bad_unrolled_in s2).
      * split; [|discriminate]. intros _. now rewrite (Hbad2 eq_refl).
      * split; [discriminate|]. intros _.
        destruct (Hgood2 eq_refl) as [r2 H2]. rewrite H2. cbn [bind].
        destruct (same r1 && same r2); eauto.
  - destruct (IHs1 st) as [Hbad1 Hgood1].
    destruct (bad_unrolled_in s1); cbn [orb].
    + split; [|discriminate]. intros _. now rewrite (Hbad1 eq_refl).
    + destruct (Hgood1 eq_refl) as [r1 H1]. rewrite H1. cbn [bind].
      destruct (IHs2 (state_of r1)) as [Hbad2 Hgood2].
      destruct (bad_unrolled_in s2).
      * split; [|discriminate]. intros _. now rewrite (Hbad2 eq_refl).
      * split; [discriminate|]. intros _.
        destruct (Hgood2 eq_refl) as [r2 H2]. rewrite H2. cbn [bind].
        destruct (same r1 && same r2); eauto.
  - destruct (IHs st) as [Hbad Hgood].
    destruct (bad_unrolled_in s).
    + split; [|discriminate]. intros _. now rewrite (Hbad eq_refl).
    + split; [discriminate|]. intros _.
      destruct (Hgood eq_refl) as [b Hb]. rewrite Hb. cbn [bind].
      destruct (same b); eauto.
  - split; [discriminate|]. eauto.
Qed.

(** ** Statements without loops *)

Lemma leaf_count_nonneg (s : Stmt) : 0 <= leaf_count s.
Proof. induction s; cbn [leaf_count]; lia. Qed.

(** X2. A statement without loops is handed back as the very node that was
    given; the run adds the number of its stores and evaluations to
    [step_count] and leaves the two depth counters alone (non-negative
    counters on entry, the step count staying within [int]). *)
Theorem loop_free_counts_leaves (s : Stmt) :
  loop_free s = true ->
  forall st,
    0 <= step_count st -> 0 <= unroll_depth st -> 0 <= normal_loop_depth st ->
    step_count st + leaf_count s <= Int.max_int ->
    Mutate s st =
    OK (mkRewritten s true
          (mkState (step_count st + leaf_count s) (unroll_depth st)
                   (normal_loop_depth st))).
Proof.
  induction s; cbn [loop_free leaf_count]; intros Hlf st Hs Hu Hn Hmax;
    try discriminate.
  - cbn [Mutate]. unfold Mutate_leaf. rewrite add_in_range
      by (unfold Int.in_range, Int.min_int, Int.max_int in *; lia).
    reflexivity.
  - cbn [Mutate]. unfold Mutate_leaf. rewrite add_in_range
      by (unfold Int.in_range, Int.min_int, Int.max_int in *; lia).
    reflexivity.
  - apply andb_true_iff in Hlf as [H1 H2].
    pose proof (leaf_count_nonneg s1). pose proof (leaf_count_nonneg s2).
    cbn [Mutate]. rewrite (IHs1 H1 st) by lia. cbn [bind state_of same].
    rewrite (IHs2 H2 zero_state) by (cbn [zero_state step_count unroll_depth
                                          normal_loop_depth]; lia).
    cbn [bind same andb state_of zero_state]. unfold merge_block.
    cbn [step_count unroll_depth normal_loop_depth zero_state].
    rewrite add_in_range
      by (unfold Int.in_range, Int.min_int, Int.max_int in *; lia).
    do 2 f_equal. f_equal; lia.
  - apply andb_true_iff in Hlf as [H1 H2].
    pose proof (leaf_count_nonneg s1). pose proof (leaf_count_nonneg s2).
    cbn [Mutate]. rewrite (IHs1 H1 st) by lia. cbn [bind state_of same].
    rewrite IHs2 by (cbn [step_count unroll_depth normal_loop_depth]; lia || assumption).
    cbn [bind same andb state_of step_count unroll_depth normal_loop_depth].
    do 2 f_equal. f_equal; lia.
  - cbn [Mutate]. rewrite (IHs Hlf st) by assumption. reflexivity.
  - cbn. do 2 f_equal. destruct st; cbn. f_equal. lia.
Qed.

(** ** Switching the automatic unrolling off *)

Lemma negative_depth_budget_same (s : Stmt) :
  auto_max_depth_ < 0 ->
  has_unrolled_tag s = false ->
  forall st, 0 <= unroll_depth st ->
    exists st', Mutate s st = OK (mkRewritten s true st') /\
                0 <= unroll_depth st'.
Proof.
  intros Hmd. induction s; cbn [has_unrolled_tag]; intros Ht st Hu.
  - apply orb_false_iff in Ht as [Hft Hbody].
    destruct (IHs Hbody st Hu) as [st1 [H1 Hu1]].
    assert (Hd : decide_unroll for_type st1 (extent_value extent) = OK false).
    { unfold decide_unroll. rewrite Hft. f_equal.
      apply not_true_is_false. rewrite auto_unroll_cond_spec. lia. }
    eexists. split.
    + rewrite (Mutate_For_declined _ _ _ _ _ _ _ _ H1); [reflexivity | exact Hd].
    + exact Hu1.
  - cbn. unfold Mutate_leaf. eauto.
  - cbn. unfold Mutate_leaf. eauto.
  - apply orb_false_iff in Ht as [Ha Hb].
    destruct (IHs1 Ha st Hu) as [st1 [H1 Hu1]].
    destruct (IHs2 Hb zero_state ltac:(cbn; lia)) as [st2 [H2 Hu2]].
    cbn [Mutate]. rewrite H1. cbn [bind]. rewrite H2. cbn [bind same andb].
    eexists. split; [reflexivity|]. cbn. lia.
  - apply orb_false_iff in Ht as [Ha Hb].
    destruct (IHs1 Ha st Hu) as [st1 [H1 Hu1]].
    destruct (IHs2 Hb st1 Hu1) as [st2 [H2 Hu2]].
    cbn [Mutate]. rewrite H1. cbn [bind state_of]. rewrite H2. cbn [bind same andb].
    eauto.
  - destruct (IHs Ht st Hu) as [st1 [H1 Hu1]].
    cbn [Mutate]. rewrite H1. cbn [bind same]. eauto.
  - cbn. eauto.
Qed.

(** X3. With a negative depth budget the pass does nothing to a tree that
    carries no [Unrolled] tag: the entry point returns the node it was
    given and the renamer does not run, whatever the step budget and the
    mode. *)
Theorem negative_depth_budget_is_identity (s : Stmt) :
  auto_max_depth_ < 0 ->
  has_unrolled_tag s = false ->
  UnrollLoop s = OK (mkOutput s true 0).
Proof.
  intros Hmd Ht.
  destruct (negative_depth_budget_same s Hmd Ht zero_state ltac:(cbn; lia))
    as [st' [H _]].
  unfold UnrollLoop. now rewrite H.
Qed.

(** ** The depth counters over a run *)

Lemma unroll_depth_bounds (s : Stmt) :
  forall st r,
    Mutate s st = OK r ->
    0 <= unroll_depth st ->
    unroll_depth st + loop_count s <= Int.max_int ->
    unroll_depth st <= unroll_depth (state_of r) <= unroll_depth st + loop_count s.
Proof.
  induction s; intros st r H H0 Hmax; cbn [loop_count] in Hmax |- *.
  - destruct (Mutate_For_state _ _ _ _ _ _ _ _ H) as [b [u [Hb [Hd Hs]]]].
    pose proof (loop_count_nonneg s) as Hlc.
    pose proof (IHs st b Hb H0 ltac:(lia)) as Hbd.
    rewrite Hs. destruct u; cbn [update_counters unroll_depth]; [|lia].
    rewrite add_in_range
      by (unfold Int.in_range, Int.min_int, Int.max_int in *; lia).
    lia.
  - cbn in H. injection H as H. subst r. cbn. lia.
  - cbn in H. injection H as H. subst r. cbn. lia.
  - cbn [Mutate] in H.
    destruct (Mutate s1 st) as [r1|] eqn:E1; cbn [bind] in H; [|discriminate].
    destruct (Mutate s2 zero_state) as [r2|] eqn:E2; cbn [bind] in H; [|discriminate].
    pose proof (loop_count_nonneg s1). pose proof (loop_count_nonneg s2).
    pose proof (IHs1 st r1 E1 H0 ltac:(lia)) as B1.
    pose proof (IHs2 zero_state r2 E2
                  ltac:(cbn [zero_state unroll_depth]; lia)
                  ltac:(cbn [zero_state unroll_depth]; lia)) as B2.
    cbn [zero_state unroll_depth] in B2.
    assert (Hs : unroll_depth (state_of r) =
                 Z.max (unroll_depth (state_of r2)) (unroll_depth (state_of r1))).
    { destruct (same r1 && same r2); injection H as H; subst r; reflexivity. }
    rewrite Hs. lia.
  - cbn [Mutate] in H.
    destruct (Mutate s1 st) as [r1|] eqn:E1; cbn [bind] in H; [|discriminate].
    destruct (Mutate s2 (state_of r1)) as [r2|] eqn:E2; cbn [bind] in H; [|discriminate].
    pose proof (loop_count_nonneg s1). pose proof (loop_count_nonneg s2).
    pose proof (IHs1 st r1 E1 H0 ltac:(lia)) as B1.
    pose proof (IHs2 (state_of r1) r2 E2 ltac:(lia) ltac:(lia)) as B2.
    assert (Hs : state_of r = state_of r2).
    { destruct (same r1 && same r2); injection H as H; subst r; reflexivity. }
    rewrite Hs. lia.
  - cbn [Mutate] in H.
    destruct (Mutate s st) as [b|] eqn:Eb; cbn [bind] in H; [|discriminate].
    pose proof (IHs st b Eb H0 Hmax) as B.
    assert (Hs : state_of r = state_of b).
    { destruct (same b); injection H as H; subst r; reflexivity. }
    rewrite Hs. lia.
  - cbn in H. injection H as H. subst r. cbn. lia.
Qed.

(** X4. Over a run neither depth counter ever goes down, and each grows by
    at most the number of loops of the statement (non-negative counters on
    entry, the bounds staying within [int]). *)
Theorem depth_counters_monotone (s : Stmt) (st : State) (r : Rewritten) :
  Mutate s st = OK r ->
  0 <= unroll_depth st -> 0 <= normal_loop_depth st ->
  unroll_depth st + loop_count s <= Int.max_int ->
  normal_loop_depth st + loop_count s <= Int.max_int ->
  unroll_depth st <= unroll_depth (state_of r) <= unroll_depth st + loop_count s /\
  normal_loop_depth st <= normal_loop_depth (state_of r)
    <= normal_loop_depth st + loop_count s.
Proof.
  intros H Hu Hn Hmu Hmn. split.
  - now apply unroll_depth_bounds.
  - now apply (normal_loop_depth_bounds s [] st r H Hn Hmn).
Qed.

(** ** Tag-only mode *)

Lemma Retagged_refl (s : Stmt) : Retagged s s.
Proof. induction s; constructor; assumption. Qed.

Lemma Retagged_is_block (a b : Stmt) : Retagged a b -> is_block b = is_block a.
Proof. intros H. destruct H; reflexivity. Qed.

(** X5. In tag-only mode the pass only marks loops: for a tree in the
    canonical nesting of [Block::make], the tree it returns is the tree it
    was given with some Serial loops turned into [Unrolled] ones; no
    statement is added, dropped, copied or reordered, and no loop of
    another kind changes its kind. *)
Theorem tag_only_retags (s : Stmt) :
  explicit_unroll_ = false ->
  canonical s = true ->
  forall st r, Mutate s st = OK r -> Retagged s (stmt_of r).
Proof.
  intros Hx. induction s; cbn [canonical]; intros Hc st r H; cbn [Mutate] in H.
  - destruct (Mutate s st) as [b|] eqn:Eb; cbn [bind] in H; [|discriminate].
    pose proof (IHs Hc st b Eb) as Hb.
    unfold Mutate_For_after_body in H.
    destruct (decide_unroll for_type (state_of b) (extent_value extent))
      as [u|] eqn:Ed; cbn [bind] in H; [|discriminate].
    rewrite Hx, andb_false_r in H.
    destruct (u && negb (ForType_eqb for_type Unrolled)) eqn:Eu;
      injection H as H; subst r; cbn [stmt_of].
    + apply andb_true_iff in Eu as [Hu Hft]. subst u.
      apply decide_unroll_decided in Ed. unfold unroll_decided in Ed.
      apply negb_true_iff in Hft. rewrite Hft in Ed. cbn [orb] in Ed.
      symmetry in Ed. apply auto_unroll_cond_spec in Ed as [Hs _]. subst for_type.
      now apply Retagged_For_tagged.
    + now apply Retagged_For_kept.
  - injection H as H. subst r. constructor.
  - injection H as H. subst r. constructor.
  - apply andb_true_iff in Hc as [Hc Hc2]. apply andb_true_iff in Hc as [Hnb Hc1].
    apply negb_true_iff in Hnb.
    destruct (Mutate s1 st) as [r1|] eqn:E1; cbn [bind] in H; [|discriminate].
    destruct (Mutate s2 zero_state) as [r2|] eqn:E2; cbn [bind] in H; [|discriminate].
    pose proof (IHs1 Hc1 st r1 E1) as R1.
    destruct (same r1 && same r2); injection H as H; subst r; cbn [stmt_of].
    + apply Retagged_refl.
    + rewrite Block_make_plain
        by (now rewrite (Retagged_is_block _ _ R1)).
      constructor; eauto.
  - apply andb_true_iff in Hc as [Hc1 Hc2].
    destruct (Mutate s1 st) as [r1|] eqn:E1; cbn [bind] in H; [|discriminate].
    destruct (Mutate s2 (state_of r1)) as [r2|] eqn:E2; cbn [bind] in H; [|discriminate].
    destruct (same r1 && same r2); injection H as H; subst r; cbn [stmt_of].
    + apply Retagged_refl.
    + constructor; eauto.
  - destruct (Mutate s st) as [b|] eqn:Eb; cbn [bind] in H; [|discriminate].
    destruct (same b); injection H as H; subst r; cbn [stmt_of].
    + apply Retagged_refl.
    + constructor; eauto.
  - injection H as H. subst r. constructor.
Qed.

(** ** Materialize mode *)

Lemma has_unrolled_tag_chain (l : list Stmt) :
  forall s,
    has_unrolled_tag s = false ->
    (forall x, In x l -> has_unrolled_tag x = false) ->
    has_unrolled_tag (chain s l) = false.
Proof.
  induction l as [|a l IH]; intros s Hs Hl; cbn [chain]; [assumption|].
  apply IH.
  - rewrite has_unrolled_tag_Block_make, Hs. apply Hl. now left.
  - intros x Hx. apply Hl. now right.
Qed.

(** X6. In materialize mode no loop tagged [Unrolled] is left in the tree
    the unroller returns: every loop it chose, or found tagged, has been
    expanded (given that substitution brings no such loop in). *)
Theorem materialize_leaves_no_unrolled_loop (s : Stmt) :
  explicit_unroll_ = true ->
  Substitute_adds_no_tag ->
  forall st r, Mutate s st = OK r -> has_unrolled_tag (stmt_of r) = false.
Proof.
  intros Hx HS. induction s; intros st r H; cbn [Mutate] in H.
  - destruct (Mutate s st) as [b|] eqn:Eb; cbn [bind] in H; [|discriminate].
    pose proof (IHs st b Eb) as Hb.
    unfold Mutate_For_after_body in H.
    destruct (decide_unroll for_type (state_of b) (extent_value extent))
      as [u|] eqn:Ed; cbn [bind] in H; [|discriminate].
    rewrite Hx, andb_true_r in H.
    destruct u.
    + destruct (extent_value extent =? 0).
      * injection H as H. subst r. reflexivity.
      * rewrite unroll_from_iterations in H.
        assert (Hall : forall x,
                   In x (iterations loop_var min (stmt_of b) (extent_value extent)) ->
                   has_unrolled_tag x = false).
        { intros x Hin. unfold iterations in Hin.
          apply in_map_iff in Hin as [k [Hk _]]. subst x. unfold unroll_step.
          apply not_true_is_false. intros Ht. apply HS in Ht. congruence. }
        destruct (iterations loop_var min (stmt_of b) (extent_value extent))
          as [|s0 more]; cbn [sequence_of] in H; injection H as H; subst r;
          cbn [stmt_of]; [reflexivity|].
        apply has_unrolled_tag_chain.
        -- apply Hall. now left.
        -- intros x Hin. apply Hall. now right.
    + cbn [andb] in H. injection H as H. subst r. cbn [stmt_of has_unrolled_tag].
      apply decide_unroll_decided in Ed. unfold unroll_decided in Ed.
      symmetry in Ed. apply orb_false_iff in Ed as [Hft _].
      now rewrite Hft, Hb.
  - injection H as H. subst r. reflexivity.
  - injection H as H. subst r. reflexivity.
  - destruct (Mutate s1 st) as [r1|] eqn:E1; cbn [bind] in H; [|discriminate].
    destruct (Mutate s2 zero_state) as [r2|] eqn:E2; cbn [bind] in H; [|discriminate].
    pose proof (IHs1 st r1 E1) as H1. pose proof (IHs2 zero_state r2 E2) as H2.
    destruct (same r1) eqn:S1, (same r2) eqn:S2; cbn [andb] in H;
      injection H as H; subst r; cbn [stmt_of has_unrolled_tag];
      rewrite ?has_unrolled_tag_Block_make;
      try (now rewrite H1, H2).
    rewrite (same_sound _ _ _ E1 S1) in H1. rewrite (same_sound _ _ _ E2 S2) in H2.
    now rewrite H1, H2.
  - destruct (Mutate s1 st) as [r1|] eqn:E1; cbn [bind] in H; [|discriminate].
    destruct (Mutate s2 (state_of r1)) as [r2|] eqn:E2; cbn [bind] in H; [|discriminate].
    pose proof (IHs1 st r1 E1) as H1.
    pose proof (IHs2 (state_of r1) r2 E2) as H2.
    destruct (same r1) eqn:S1, (same r2) eqn:S2; cbn [andb] in H;
      injection H as H; subst r; cbn [stmt_of has_unrolled_tag];
      rewrite ?has_unrolled_tag_Block_make;
      try (now rewrite H1, H2).
    rewrite (same_sound _ _ _ E1 S1) in H1. rewrite (same_sound _ _ _ E2 S2) in H2.
    now rewrite H1, H2.
  - destruct (Mutate s st) as [b|] eqn:Eb; cbn [bind] in H; [|discriminate].
    pose proof (IHs st b Eb) as Hb.
    destruct (same b) eqn:Sb; injection H as H; subst r;
      cbn [stmt_of has_unrolled_tag]; [|assumption].
    now rewrite (same_sound _ _ _ Eb Sb) in Hb.
  - injection H as H. subst r. reflexivity.
Qed.

Lemma leaf_count_chain (k : Z) (l : list Stmt) :
  forall s,
    (forall x, In x l -> leaf_count x = k) ->
    leaf_count (chain s l) = leaf_count s + k * Z.of_nat (List.length l).
Proof.
  induction l as [|a l IH]; intros s Hl; cbn [chain List.length].
  - lia.
  - rewrite IH by (intros x Hx; apply Hl; now right).
    rewrite leaf_count_Block_make, (Hl a) by now left. lia.
Qed.

(** X7. Unrolling a loop of resolved extent [N > 0] in materialize mode
    multiplies by [N] both the number of stores and evaluations of the
    body and the step count of the scope, so a step count that matched the
    body before the loop matches the unrolled code after it (given that
    substitution keeps the stores and evaluations, and that the product
    fits an [int]). *)
Theorem unrolling_scales_cost (v : VarT) (m e : Expr) (ft : ForType) (dev : Z)
        (body : Stmt) (st : State) (b : Rewritten) (N : Z) :
  Substitute_keeps_leaves ->
  explicit_unroll_ = true ->
  Mutate body st = OK b ->
  extent_value e = N ->
  0 < N ->
  decide_unroll ft (state_of b) N = OK true ->
  Int.in_range (step_count (state_of b) * N) ->
  exists r,
    Mutate (For v m e ft dev body) st = OK r /\
    leaf_count (stmt_of r) = N * leaf_count (stmt_of b) /\
    step_count (state_of r) = step_count (state_of b) * N /\
    (step_count (state_of b) = leaf_count (stmt_of b) ->
     step_count (state_of r) = leaf_count (stmt_of r)).
Proof.
  intros HS Hx Hb He HN Hd Hr.
  rewrite (Mutate_For_unfold _ _ _ _ _ _ _ _ Hb).
  unfold Mutate_For_after_body. rewrite He, Hd, Hx. cbn [bind andb].
  destruct (N =? 0) eqn:E0; [apply Z.eqb_eq in E0; lia|].
  rewrite unroll_from_iterations.
  pose proof (iterations_length v m (stmt_of b) N) as Hlen.
  assert (Hall : forall x, In x (iterations v m (stmt_of b) N) ->
                           leaf_count x = leaf_count (stmt_of b)).
  { intros x Hin. unfold iterations in Hin.
    apply in_map_iff in Hin as [k [Hk _]]. subst x. apply HS. }
  destruct (iterations v m (stmt_of b) N) as [|s0 more];
    cbn [List.length] in Hlen; [lia|].
  cbn [sequence_of]. eexists. split; [reflexivity|].
  cbn [stmt_of state_of update_counters step_count].
  rewrite (leaf_count_chain (leaf_count (stmt_of b)))
    by (intros x Hin; apply Hall; now right).
  rewrite (Hall s0) by now left.
  rewrite (mul_in_range _ _ Hr).
  assert (Hm : Z.of_nat (List.length more) = N - 1) by lia.
  rewrite Hm. repeat split; try lia.
Qed.

(** ** Re-associating a sequence *)

Lemma to_int_add_idemp_l (a b : Z) : Int.to_int (Int.to_int a + b) = Int.to_int (a + b).
Proof.
  unfold Int.to_int. f_equal.
  replace ((a + 2 ^ 31) mod 2 ^ 32 - 2 ^ 31 + b + 2 ^ 31)
    with ((a + 2 ^ 31) mod 2 ^ 32 + b) by lia.
  rewrite Zplus_mod_idemp_l. f_equal. lia.
Qed.

Lemma add_assoc (a b c : Z) : Int.add a (Int.add b c) = Int.add (Int.add a b) c.
Proof.
  unfold Int.add. rewrite to_int_add_idemp_l.
  rewrite (Z.add_comm a (Int.to_int (b + c))), to_int_add_idemp_l.
  f_equal. lia.
Qed.

(** X8. The way a sequence of three statements is nested makes no
    difference to the cost model: [Block(Block(a, b), c)] and
    [Block(a, Block(b, c))] lead to the same counters (or to the same
    abort) and to the same eligibility evaluations, from any scope. *)
Theorem block_reassociation (a b c : Stmt) (st : State)
        (anc : list (option bool)) :
  counters_after (Mutate (Block (Block a b) c) st) =
  counters_after (Mutate (Block a (Block b c)) st) /\
  decisions anc (Block (Block a b) c) st =
  decisions anc (Block a (Block b c)) st.
Proof.
  cbn [Mutate decisions].
  destruct (Mutate a st) as [ra|] eqn:Ea; cbn [bind];
    [|split; [reflexivity | now rewrite app_nil_r]].
  destruct (Mutate b zero_state) as [rb|] eqn:Eb; cbn [bind];
    [|split; [reflexivity | now rewrite !app_nil_r]].
  destruct (Mutate c zero_state) as [rc|] eqn:Ec; cbn [bind].
  - split; [|destruct (same ra && same rb); now rewrite app_assoc].
    assert (Hm : merge_block (merge_block (state_of ra) (state_of rb)) (state_of rc) =
                 merge_block (state_of ra) (merge_block (state_of rb) (state_of rc))).
    { unfold merge_block. cbn [step_count unroll_depth normal_loop_depth].
      f_equal; [apply add_assoc | apply Z.max_assoc | symmetry; apply Z.max_assoc]. }
    repeat (cbn [bind state_of same counters_after]; rewrite ?Ec;
            match goal with
            | |- context [if ?x then _ else _] => destruct x
            end);
      cbn [bind state_of same counters_after]; now rewrite Hm.
  - split; [|destruct (same ra && same rb); now rewrite app_assoc].
    destruct (same ra && same rb); cbn [bind]; rewrite ?Ec; reflexivity.
Qed.

End LoopUnroller.

(** * The examples, evaluated *)

Import Model Examples.

Lemma in_range_small (z : Z) : -1000 <= z <= 1000 -> Int.in_range z.
Proof. unfold Int.in_range, Int.min_int, Int.max_int. lia. Qed.

Lemma Model_Substitute_adds_no_loop : Substitute_adds_no_loop Model.ext.
Proof.
  intros s binding. cbn [Substitute Model.ext].
  induction s; cbn [substitute declined_loop_in];
    rewrite ?orb_true_iff; tauto.
Qed.

Lemma budget_gate_witness :
  Int.in_range (4 * 1) /\
  (decide_unroll 16 8 Serial (mkState 1 0 0) 4 = OK true <->
   4 >= 0 /\ 0 <= 8 /\ 4 * 1 <= 16).
Proof.
  split.
  - apply in_range_small. lia.
  - apply (budget_gate 16 8 4 1 0). apply in_range_small. lia.
Defined.

Lemma exact_expansion_witness :
  exists unrolled,
    Mutate Model.ext 16 8 true loop4 zero_state =
      OK (mkRewritten unrolled false (mkState 4 1 0)) /\
    statements unrolled = [store_k 0; store_k 1; store_k 2; store_k 3].
Proof.
  destruct (exact_expansion Model.ext 16 8 true var_i (lit 0) (lit 4) Serial 0
              (store_a (EVar var_i)) zero_state
              (mkRewritten (store_a (EVar var_i)) true (mkState 1 0 0)) 4
              eq_refl eq_refl ltac:(apply in_range_small; lia) ltac:(lia)
              eq_refl eq_refl)
    as [unrolled [H1 [_ [H3 _]]]].
  exists unrolled. split; [exact H1 | exact H3].
Defined.

Lemma budget_gate_on_loop_witness :
  exists r,
    Mutate Model.ext 16 8 true loop4 zero_state = OK r /\
    state_of r = mkState 4 1 0.
Proof.
  apply (budget_gate_on_loop Model.ext 16 8 true var_i (lit 0) (lit 4) 0
           (store_a (EVar var_i)) zero_state
           (mkRewritten (store_a (EVar var_i)) true (mkState 1 0 0)) 4
           eq_refl eq_refl ltac:(apply in_range_small; lia) eq_refl
           ltac:(apply in_range_small; cbn; lia)).
  cbn. lia.
Defined.

Lemma sequence_counter_algebra_witness :
  exists r,
    Mutate Model.ext 16 8 true (Block loop4 loop_n) zero_state = OK r /\
    step_count (state_of r) = 4 + 1 /\
    unroll_depth (state_of r) = Z.max 1 0 /\
    normal_loop_depth (state_of r) = Z.max 0 1.
Proof.
  destruct (sequence_counter_algebra Model.ext 16 8 true loop4 loop_n
              (mkRewritten right_nested4 false (mkState 4 1 0))
              (mkRewritten loop_n true (mkState 1 0 1)) []
              eq_refl eq_refl ltac:(apply in_range_small; cbn; lia))
    as [r [H [Hs [Hu [Hn _]]]]].
  exists r. repeat split; assumption.
Defined.

Lemma zero_extent_collapse_witness :
  exists r,
    Mutate Model.ext 16 8 false loop0 zero_state = OK r /\
    step_count (state_of r) = 0 /\
    stmt_of r = For var_i (lit 0) (lit 0) Unrolled 0 (store_a (EVar var_i)).
Proof.
  destruct (zero_extent_collapse Model.ext 16 8 false var_i (lit 0) (lit 0)
              Serial 0 (store_a (EVar var_i)) zero_state
              (mkRewritten (store_a (EVar var_i)) true (mkState 1 0 0))
              eq_refl eq_refl eq_refl)
    as [r [H [Hs [_ Ht]]]].
  exists r. repeat split; [exact H | exact Hs | exact (Ht eq_refl)].
Defined.

Lemma identity_preservation_witness :
  UnrollLoop Model.ext 16 8 true loop_n = OK (mkOutput loop_n true 0) /\
  UnrollLoop Model.ext 16 8 true loop4 =
    OK (mkOutput (ConvertSSA Model.ext right_nested4) false 1).
Proof.
  split.
  - apply (proj1 (identity_preservation Model.ext 16 8 true loop_n)).
    intros d [Hd|[]]. subst d. reflexivity.
  - apply (proj2 (proj2 (identity_preservation Model.ext 16 8 true loop4))
             (mkRewritten right_nested4 false (mkState 4 1 0)));
      reflexivity.
Defined.

Lemma declined_inner_loop_blocks_auto_unroll_witness :
  0 < 1 /\
  Mutate Model.ext 16 8 true nest4n zero_state =
    OK (mkRewritten nest4n true (mkState 1 0 2)).
Proof.
  destruct (declined_inner_loop_blocks_auto_unroll Model.ext 16 8 true
              var_j (lit 0) (lit 4) 0 loop_n zero_state
              (mkRewritten loop_n true (mkState 1 0 1))
              Model_Substitute_adds_no_loop eq_refl eq_refl
              ltac:(cbn; lia)
              ltac:(unfold Int.max_int; cbn; lia))
    as [Hpos [_ [Hm _]]].
  split; [exact Hpos | exact Hm].
Defined.

Lemma depth_counters_count_body_witness :
  exists inner d,
    decisions Model.ext 16 8 false [] nest44 zero_state = inner ++ [d] /\
    d_ancestors d = [] /\
    unroll_depth (d_state d) = 0 + Z.of_nat (count_unrolled inner) /\
    normal_loop_depth (d_state d) = 0 + Z.of_nat (count_declined inner).
Proof.
  destruct (depth_counters_count_body Model.ext 16 8 false
              var_j (lit 0) (lit 4) Serial 0 loop4 zero_state
              (mkRewritten (For var_i (lit 0) (lit 4) Unrolled 0 (store_a (EVar var_i)))
                           false (mkState 4 1 0))
              [] eq_refl eq_refl
              ltac:(cbn; lia) ltac:(cbn; lia)
              ltac:(unfold Int.max_int; cbn; lia)
              ltac:(unfold Int.max_int; cbn; lia))
    as [inner [d [H [_ [Ha [_ [Hu Hn]]]]]]].
  exists inner, d. repeat split; assumption.
Defined.

(** C7. End-to-end example: for
    [Loop(i, min=0, extent=4, Serial, body=Store(a[i], i))] at top level
    with [max_auto_step=16], [max_auto_depth=8] and materialize on, the
    output is the right-nested
    [Sequence(Store(a[0],0), Sequence(Store(a[1],1), Sequence(Store(a[2],2), Store(a[3],3))))],
    four copies in ascending index order: that tree is what the entry point
    hands to the renamer, once, whatever the renamer is, and the renamer
    has nothing to rename in it. *)
Theorem end_to_end_example :
  (forall renamer : Stmt -> Stmt,
     UnrollLoop (mkExternals simplify substitute compute_add renamer)
                16 8 true loop4 =
     OK (mkOutput (renamer right_nested4) false 1)) /\
  UnrollLoop Model.ext 16 8 true loop4 = OK (mkOutput right_nested4 false 1).
Proof. split; reflexivity. Qed.

(** C1. A Serial loop whose extent is the negative [int64] literal
    [-2^32], evaluated with step_count 1, unroll_depth 0 and
    normal_loop_depth 0, is found eligible: narrowed to [int] the extent
    is 0, and the test [value >= 0] of line 46 passes. *)
Theorem budget_gate_narrowing :
  literal_value (Simplify Model.ext (IntImm (TInt 64) (-4294967296))) =
    Some (-4294967296) /\
  decisions Model.ext 16 8 true [] loop_minus_2_32 zero_state =
    [mkDecision var_l Serial 0 (mkState 1 0 0) [] true].
Proof. split; reflexivity. Qed.


(** In tag-only mode a zero-extent loop is kept, not turned into a no-op. *)
Lemma zero_extent_tag_mode_keeps_loop :
  ~ zero_extent_is_noop Model.ext 16 8 false.
Proof.
  intros H.
  specialize (H var_i (lit 0) (lit 0) Serial 0 (store_a (EVar var_i)) zero_state
                _ _ eq_refl eq_refl eq_refl eq_refl).
  discriminate H.
Qed.

(** The outermost loop of a nest has no ancestor, yet [unroll_depth] is 1
    when its eligibility is evaluated. *)
Lemma root_loop_counts_no_ancestors :
  ~ Forall counts_ancestors (decisions Model.ext 16 8 true [] nest44 zero_state).
Proof.
  intros H. apply Forall_forall with
    (x := mkDecision var_j Serial 4 (mkState 4 1 0) [] true) in H.
  - destruct H as [Hu _]. discriminate Hu.
  - right. left. reflexivity.
Qed.

(** C3. An [Unrolled]-tagged loop whose extent is the [uint32] literal
    [2^31], a known non-negative integer, makes the pass abort, whatever the
    budget and the mode: narrowed to [int] the extent is negative. *)
Theorem forced_unroll_narrowing (ms md : Z) (eu : bool) :
  literal_value (Simplify Model.ext (UIntImm (TUInt 32) 2147483648)) = Some 2147483648 /\
  UnrollLoop Model.ext ms md eu loop_2_31 = Fatal "Cannot unroll non-constant loop".
Proof. split; reflexivity. Qed.

(** C10. A Serial loop whose extent is the negative [int64] literal
    [-2^32] is unrolled: narrowed to [int] the extent is 0, and in
    materialize mode the loop is replaced by the no-op. *)
Theorem negative_extent_narrowing :
  literal_value (Simplify Model.ext (IntImm (TInt 64) (-4294967296))) = Some (-4294967296) /\
  Mutate Model.ext 16 8 true loop_minus_2_32 zero_state =
    OK (mkRewritten Evaluate_zero false (mkState 0 1 0)) /\
  Mutate Model.ext 16 8 true
         (For var_l (IntImm (TInt 64) 0) (EVar var_n) Serial 0 (store_a (EVar var_l)))
         zero_state =
    OK (mkRewritten
          (For var_l (IntImm (TInt 64) 0) (EVar var_n) Serial 0 (store_a (EVar var_l)))
          true (mkState 1 0 1)).
Proof. repeat split. Qed.

(** * Mode and collaborators *)

Lemma extent_value_ext (ext1 ext2 : Externals) (e : Expr) :
  (forall x, Simplify ext1 x = Simplify ext2 x) ->
  extent_value ext1 e = extent_value ext2 e.
Proof. intros H. unfold extent_value. now rewrite H. Qed.

Lemma Mutate_For_after_body_counters
      (ext : Externals) (ms md : Z) (eu : bool)
      (v : VarT) (m e : Expr) (ft : ForType) (dev : Z) (body : Stmt)
      (sb : bool) (st : State) :
  counters_after (Mutate_For_after_body ext ms md eu v m e ft dev body sb st) =
  (u <- decide_unroll ms md ft st (extent_value ext e) ;;
   OK (update_counters u (extent_value ext e) st)).
Proof.
  unfold Mutate_For_after_body.
  destruct (decide_unroll ms md ft st (extent_value ext e)) as [u|]; cbn [bind];
    [|reflexivity].
  repeat match goal with
         | |- context [if ?c then _ else _] => destruct c
         | |- context [match ?c with Some _ => _ | None => _ end] => destruct c
         end; reflexivity.
Qed.

(** X9. Which loops are chosen does not depend on the mode: with the same
    budget, a materializing run and a tag-only run (and runs that differ in
    the substitution engine, the folding addition or the renamer) end with
    the same counters, or abort with the same diagnostic; only the
    simplifier has a say. *)
Theorem counters_independent_of_mode
        (ext1 ext2 : Externals) (ms md : Z) (eu1 eu2 : bool) (s : Stmt) :
  (forall e, Simplify ext1 e = Simplify ext2 e) ->
  forall st,
    counters_after (Mutate ext1 ms md eu1 s st) =
    counters_after (Mutate ext2 ms md eu2 s st).
Proof.
  intros HS. induction s; intros st; cbn [Mutate].
  - specialize (IHs st).
    destruct (Mutate ext1 ms md eu1 s st) as [b1|m1],
             (Mutate ext2 ms md eu2 s st) as [b2|m2];
      cbn [counters_after bind] in *; try congruence.
    rewrite !Mutate_For_after_body_counters.
    rewrite (extent_value_ext ext1 ext2 extent HS).
    injection IHs as IHs. now rewrite IHs.
  - reflexivity.
  - reflexivity.
  - specialize (IHs1 st). specialize (IHs2 zero_state).
    destruct (Mutate ext1 ms md eu1 s1 st) as [a1|],
             (Mutate ext2 ms md eu2 s1 st) as [a2|];
      cbn [counters_after bind] in *; try congruence.
    destruct (Mutate ext1 ms md eu1 s2 zero_state) as [c1|],
             (Mutate ext2 ms md eu2 s2 zero_state) as [c2|];
      cbn [counters_after bind] in *; try congruence.
    destruct (same a1 && same c1), (same a2 && same c2);
      cbn [counters_after state_of]; congruence.
  - specialize (IHs1 st).
    destruct (Mutate ext1 ms md eu1 s1 st) as [a1|],
             (Mutate ext2 ms md eu2 s1 st) as [a2|];
      cbn [counters_after bind] in *; try congruence.
    injection IHs1 as IHs1. rewrite IHs1. specialize (IHs2 (state_of a2)).
    destruct (Mutate ext1 ms md eu1 s2 (state_of a2)) as [c1|],
             (Mutate ext2 ms md eu2 s2 (state_of a2)) as [c2|];
      cbn [counters_after bind] in *; try congruence.
    destruct (same a1 && same c1), (same a2 && same c2);
      cbn [counters_after state_of]; congruence.
  - specialize (IHs st).
    destruct (Mutate ext1 ms md eu1 s st) as [b1|],
             (Mutate ext2 ms md eu2 s st) as [b2|];
      cbn [counters_after bind] in *; try congruence.
    destruct (same b1), (same b2); cbn [counters_after state_of]; congruence.
  - reflexivity.
Qed.

(** X10. A tag-only run never substitutes, folds or renames inside the
    traversal: two runs whose collaborators agree on the simplifier give
    the same result. *)
Theorem tag_only_uses_only_simplifier
        (ext1 ext2 : Externals) (ms md : Z) (s : Stmt) :
  (forall e, Simplify ext1 e = Simplify ext2 e) ->
  forall st, Mutate ext1 ms md false s st = Mutate ext2 ms md false s st.
Proof.
  intros HS. induction s; intros st; cbn [Mutate].
  - rewrite IHs. destruct (Mutate ext2 ms md false s st) as [b|]; cbn [bind];
      [|reflexivity].
    unfold Mutate_For_after_body.
    rewrite (extent_value_ext ext1 ext2 extent HS).
    destruct (decide_unroll ms md for_type (state_of b) (extent_value ext2 extent))
      as [u|]; cbn [bind]; [|reflexivity].
    now rewrite andb_false_r.
  - reflexivity.
  - reflexivity.
  - now rewrite IHs1, IHs2.
  - rewrite IHs1. destruct (Mutate ext2 ms md false s1 st) as [t|]; cbn [bind];
      [|reflexivity].
    now rewrite IHs2.
  - now rewrite IHs.
  - reflexivity.
Qed.

(** * Further examples, evaluated *)

Lemma Model_Substitute_adds_no_tag : Substitute_adds_no_tag Model.ext.
Proof.
  intros s binding. cbn [Substitute Model.ext].
  induction s; cbn [substitute has_unrolled_tag];
    rewrite ?orb_true_iff; tauto.
Qed.

Lemma Model_Substitute_keeps_leaves : Substitute_keeps_leaves Model.ext.
Proof.
  intros s binding. cbn [Substitute Model.ext].
  induction s; cbn [substitute leaf_count]; congruence.
Qed.

Lemma aborts_exactly_on_bad_unrolled_loop_witness :
  Mutate Model.ext 16 8 true loop_2_31 zero_state =
    Fatal "Cannot unroll non-constant loop" /\
  exists r, Mutate Model.ext 16 8 true loop4 zero_state = OK r.
Proof.
  split.
  - apply (aborts_exactly_on_bad_unrolled_loop Model.ext 16 8 true loop_2_31
             zero_state). reflexivity.
  - apply (aborts_exactly_on_bad_unrolled_loop Model.ext 16 8 true loop4
             zero_state). reflexivity.
Defined.

Lemma loop_free_counts_leaves_witness :
  Mutate Model.ext 16 8 true (Block (store_k 0) (store_k 1)) zero_state =
  OK (mkRewritten (Block (store_k 0) (store_k 1)) true (mkState (0 + (1 + 1)) 0 0)).
Proof.
  apply (loop_free_counts_leaves Model.ext 16 8 true
           (Block (store_k 0) (store_k 1)) eq_refl zero_state);
    cbn; unfold Int.max_int; lia.
Defined.

Lemma negative_depth_budget_is_identity_witness :
  UnrollLoop Model.ext 16 (-1) true nest44 = OK (mkOutput nest44 true 0).
Proof.
  apply (negative_depth_budget_is_identity Model.ext 16 (-1) true nest44).
  - lia.
  - reflexivity.
Defined.

Lemma depth_counters_monotone_witness :
  0 <= 0 <= 0 + 2 /\ 0 <= 2 <= 0 + 2.
Proof.
  apply (depth_counters_monotone Model.ext 16 8 true nest4n zero_state
           (mkRewritten nest4n true (mkState 1 0 2)) eq_refl);
    cbn; unfold Int.max_int; lia.
Defined.

Lemma tag_only_retags_witness :
  Retagged nest44
    (For var_j (lit 0) (lit 4) Unrolled 0
       (For var_i (lit 0) (lit 4) Unrolled 0 (store_a (EVar var_i)))).
Proof.
  apply (tag_only_retags Model.ext 16 8 false nest44 eq_refl eq_refl zero_state
           (mkRewritten
              (For var_j (lit 0) (lit 4) Unrolled 0
                 (For var_i (lit 0) (lit 4) Unrolled 0 (store_a (EVar var_i))))
              false (mkState 16 2 0))).
  reflexivity.
Defined.

Lemma materialize_leaves_no_unrolled_loop_witness :
  has_unrolled_tag
    (Block (store_k 0) (store_k 1)) = false.
Proof.
  apply (materialize_leaves_no_unrolled_loop Model.ext 16 8 true
           (For var_i (lit 0) (lit 2) Unrolled 0 (store_a (EVar var_i)))
           eq_refl Model_Substitute_adds_no_tag zero_state
           (mkRewritten (Block (store_k 0) (store_k 1)) false (mkState 2 1 0))).
  reflexivity.
Defined.

Lemma unrolling_scales_cost_witness :
  exists r,
    Mutate Model.ext 16 8 true loop4 zero_state = OK r /\
    leaf_count (stmt_of r) = 4 * 1 /\
    step_count (state_of r) = 1 * 4.
Proof.
  destruct (unrolling_scales_cost Model.ext 16 8 true var_i (lit 0) (lit 4)
              Serial 0 (store_a (EVar var_i)) zero_state
              (mkRewritten (store_a (EVar var_i)) true (mkState 1 0 0)) 4
              Model_Substitute_keeps_leaves eq_refl eq_refl eq_refl
              ltac:(lia) eq_refl ltac:(apply in_range_small; cbn; lia))
    as [r [H [Hl [Hs _]]]].
  exists r. repeat split; assumption.
Defined.

Lemma counters_independent_of_mode_witness :
  counters_after (Mutate Model.ext 16 8 true nest44 zero_state) =
  counters_after (Mutate bare_ext 16 8 false nest44 zero_state).
Proof.
  apply (counters_independent_of_mode Model.ext bare_ext 16 8 true false nest44).
  intros e. reflexivity.
Defined.

Lemma tag_only_uses_only_simplifier_witness :
  Mutate Model.ext 16 8 false nest44 zero_state =
  Mutate bare_ext 16 8 false nest44 zero_state.
Proof.
  apply (tag_only_uses_only_simplifier Model.ext bare_ext 16 8 nest44).
  intros e. reflexivity.
Defined.
